(** * deepdive_calibrate: the recording session and the calibration pipeline

    A shallow embedding of [ros/src/deepdive_calibrate.cc]: the light,
    correction and trigger callbacks and [Solve].

    - [double] is IEEE binary64, taken from the primitive floats.
    - [std::map] is a key-ordered association list ([StdMap]); [begin()] is
      its head and iteration runs down the list.
    - The process-wide variables of the file are the fields of [State]; every
      callback is a function from [State] to [State].
    - Eigen, OpenCV and libm are not part of the file; what is called of
      them is a field of the class [Extern]. [deepdive.hh] is not among the
      sources either: [Mean], [Correct] and [Kabsch] are modelled from the
      spec, over the numerical kernels in [Extern].
    - Log output ([ROS_INFO], [ROS_WARN]) and the rviz paths are not
      modelled: they read the state and write none of it. The offline timer
      is no field of [State]; it is part of the event loop ([Node],
      [dispatch]).
    - [main] and the event loop come after the pipeline: [main] as the state
      it hands to [ros::spin()], the loop as a fold of [dispatch] over the
      events. *)

From Stdlib Require Import ZArith List String Ascii Lia Bool.
From Stdlib Require Import PrimFloat Uint63 SpecFloat FloatOps FloatAxioms.
Import ListNotations.

Set Implicit Arguments.
Set Warnings "-inexact-float".

(** ** Numbers *)

Definition double := float.

Definition d0 : double := 0%float.
Definition d1 : double := 1%float.

(** A [size_t] promoted to [double] (the counts met here are far below 2^63). *)
Definition double_of_size (n : nat) : double :=
  PrimFloat.of_uint63 (Uint63.of_Z (Z.of_nat n)).

(** The [float] nearest to a [double], ties to even, with overflow to
    infinity and underflow through the subnormals, given as the [double] it
    promotes to: what a [float32] message field holds of a number. *)
Definition float32_of_double (x : double) : double :=
  match Prim2SF x with
  | S754_finite s m e => SF2Prim (binary_round 24 128 s m e)
  | _ => x
  end.

(** [int] converted to [size_t], as in the comparison of a [size()] with an
    [int]. *)
Definition size_t_of_int (i : Z) : Z := i mod 2 ^ 64.

(** [double[6]]: three translation and three axis-angle components. *)
Record arr6 := Arr6 { c0 : double; c1 : double; c2 : double;
                      c3 : double; c4 : double; c5 : double }.

Definition zero6 : arr6 := Arr6 d0 d0 d0 d0 d0 d0.

(** [a[i] = v] for [i < 6]. *)
Definition set6 (i : nat) (v : double) (a : arr6) : arr6 :=
  match i with
  | 0 => Arr6 v (c1 a) (c2 a) (c3 a) (c4 a) (c5 a)
  | 1 => Arr6 (c0 a) v (c2 a) (c3 a) (c4 a) (c5 a)
  | 2 => Arr6 (c0 a) (c1 a) v (c3 a) (c4 a) (c5 a)
  | 3 => Arr6 (c0 a) (c1 a) (c2 a) v (c4 a) (c5 a)
  | 4 => Arr6 (c0 a) (c1 a) (c2 a) (c3 a) v (c5 a)
  | 5 => Arr6 (c0 a) (c1 a) (c2 a) (c3 a) (c4 a) v
  | _ => a
  end.

Record Vec3 := V3 { vx : double; vy : double; vz : double }.
Record Vec2 := V2 { ux : double; uy : double }.
Record Mat3 := M3 { row0 : Vec3; row1 : Vec3; row2 : Vec3 }.

Definition Identity3 : Mat3 :=
  M3 (V3 d1 d0 d0) (V3 d0 d1 d0) (V3 d0 d0 d1).

(** [Eigen::Affine3d], read through [translation()] and [linear()]. *)
Record Affine3d := Affine { translation : Vec3; linear : Mat3 }.

Definition AffineIdentity : Affine3d := Affine (V3 d0 d0 d0) Identity3.

Record Quaternion := Quat { qw : double; qx : double; qy : double; qz : double }.

(** ** Ordered keys and [std::map] *)

Class OrdKey (K : Type) := { kcmp : K -> K -> comparison }.

(** [kcmp] is the three-way form of a strict total order on the keys. *)
Class OrdKeyLaws (K : Type) `{OrdKey K} := {
  kcmp_refl : forall k, kcmp k k = Eq;
  kcmp_eq : forall a b, kcmp a b = Eq -> a = b;
  kcmp_lt_trans : forall a b c, kcmp a b = Lt -> kcmp b c = Lt -> kcmp a c = Lt;
  kcmp_gt_lt : forall a b, kcmp a b = Gt -> kcmp b a = Lt
}.

Arguments OrdKeyLaws K {_}.

Module StdMap.

Definition t (K V : Type) := list (K * V).

Section Ops.
Context {K V : Type} `{OrdKey K}.

(** [m.find(k)], [None] standing for [m.end()]. *)
Fixpoint find (k : K) (m : t K V) : option V :=
  match m with
  | [] => None
  | (k', v) :: m' =>
      match kcmp k k' with
      | Eq => Some v
      | Lt => None
      | Gt => find k m'
      end
  end.

(** [f(m[k])] for an [f] that writes through the reference: a missing key
    is first inserted, in key order, with the value-initialised [dflt]. *)
Fixpoint subscript (dflt : V) (k : K) (f : V -> V) (m : t K V) : t K V :=
  match m with
  | [] => [(k, f dflt)]
  | (k', v) :: m' =>
      match kcmp k k' with
      | Eq => (k', f v) :: m'
      | Lt => (k, f dflt) :: (k', v) :: m'
      | Gt => (k', v) :: subscript dflt k f m'
      end
  end.

(** The value read by [m[k]]; the empty entry a read inserts for a missing
    key is seen as [dflt] by every later read as well. *)
Definition read (dflt : V) (k : K) (m : t K V) : V :=
  match find k m with Some v => v | None => dflt end.

Definition mem (k : K) (m : t K V) : bool :=
  match find k m with Some _ => true | None => false end.

Definition empty (m : t K V) : bool :=
  match m with [] => true | _ => false end.

Definition size (m : t K V) : nat := List.length m.

(** Keys strictly increasing: what every [std::map] satisfies. *)
Fixpoint above (k : K) (m : t K V) : Prop :=
  match m with
  | [] => True
  | (k', _) :: m' => kcmp k k' = Lt /\ above k m'
  end.

Fixpoint ordered (m : t K V) : Prop :=
  match m with
  | [] => True
  | (k, _) :: m' => above k m' /\ ordered m'
  end.
End Ops.

End StdMap.

(** [ros::Time] and the [uint8_t] keys compare as integers, [std::string]
    keys byte by byte. *)
#[export] Instance OrdKey_Z : OrdKey Z := {| kcmp := Z.compare |}.
#[export] Instance OrdKey_string : OrdKey string := {| kcmp := String.compare |}.

(** ** Messages and configuration *)

(** [ros::Time], in nanoseconds. *)
Definition Time := Z.

(** A [uint8_t] map key. *)
Definition to_uint8 (x : Z) : Z := x mod 256.

(** [deepdive_ros::Pulse] and [deepdive_ros::Light], with the fields the file
    reads. [angle] and [duration] are [float32] fields: the record holds
    them as the comparisons of [LightCallback] see them, promoted to
    [double], so a message carries only values of [float32_of_double]. *)
Record Pulse := MkPulse { sensor : Z; angle : double; duration : double }.

Record Light := MkLight {
  frame_id : string;        (* header.frame_id: the tracker serial *)
  lighthouse : string;
  axis : Z;
  pulses : list Pulse
}.

Record Measurement := MkMeasurement { light : Light }.

(** [geometry_msgs::TransformStamped]. *)
Record TransformStamped := MkTransformStamped {
  header_frame_id : string;
  child_frame_id : string;
  transform_translation : Vec3;
  transform_rotation : Quaternion
}.

Record Tracker := MkTracker {
  bTh : arr6;
  sensors : list double;
  tracker_ready : bool
}.

Record Lighthouse := MkLighthouse {
  params : list double;
  vTl : arr6;
  lighthouse_ready : bool
}.

Definition TrackerMap := StdMap.t string Tracker.
Definition LighthouseMap := StdMap.t string Lighthouse.
Definition MeasurementMap := StdMap.t Time Measurement.
Definition CorrectionMap := StdMap.t Time TransformStamped.

(** What leaves the node with the transform graph in it. *)
Inductive Effect :=
| SendTransforms (wTv : arr6) (ls : LighthouseMap) (ts : TrackerMap)
| WriteConfig (wTv : arr6) (ls : LighthouseMap) (ts : TrackerMap).

(** The global variables of the file. [solves_] is a ghost counter of the
    entries into [Solve]; [sent_] collects the effects in order. *)
Record State := MkState {
  trackers_ : TrackerMap;
  lighthouses_ : LighthouseMap;
  measurements_ : MeasurementMap;
  corrections_ : CorrectionMap;
  frame_world_ : string;
  frame_body_ : string;
  thresh_count_ : Z;
  thresh_angle_ : double;
  thresh_duration_ : double;
  recording_ : bool;
  correct_ : bool;
  res_ : double;
  offset_ : list double;
  wTv_ : arr6;
  sent_ : list Effect;
  solves_ : nat
}.

Definition set_measurements (m : MeasurementMap) (s : State) : State :=
  MkState (trackers_ s) (lighthouses_ s) m (corrections_ s)
    (frame_world_ s) (frame_body_ s) (thresh_count_ s) (thresh_angle_ s)
    (thresh_duration_ s) (recording_ s) (correct_ s) (res_ s) (offset_ s)
    (wTv_ s) (sent_ s) (solves_ s).

Definition set_corrections (c : CorrectionMap) (s : State) : State :=
  MkState (trackers_ s) (lighthouses_ s) (measurements_ s) c
    (frame_world_ s) (frame_body_ s) (thresh_count_ s) (thresh_angle_ s)
    (thresh_duration_ s) (recording_ s) (correct_ s) (res_ s) (offset_ s)
    (wTv_ s) (sent_ s) (solves_ s).

Definition set_recording (r : bool) (s : State) : State :=
  MkState (trackers_ s) (lighthouses_ s) (measurements_ s) (corrections_ s)
    (frame_world_ s) (frame_body_ s) (thresh_count_ s) (thresh_angle_ s)
    (thresh_duration_ s) r (correct_ s) (res_ s) (offset_ s)
    (wTv_ s) (sent_ s) (solves_ s).

Definition set_solves (n : nat) (s : State) : State :=
  MkState (trackers_ s) (lighthouses_ s) (measurements_ s) (corrections_ s)
    (frame_world_ s) (frame_body_ s) (thresh_count_ s) (thresh_angle_ s)
    (thresh_duration_ s) (recording_ s) (correct_ s) (res_ s) (offset_ s)
    (wTv_ s) (sent_ s) n.

(** The writes at the end of [Solve]: the transform graph and its two
    deliveries. *)
Definition set_graph (ls : LighthouseMap) (w : arr6) (s : State) : State :=
  MkState (trackers_ s) ls (measurements_ s) (corrections_ s)
    (frame_world_ s) (frame_body_ s) (thresh_count_ s) (thresh_angle_ s)
    (thresh_duration_ s) (recording_ s) (correct_ s) (res_ s) (offset_ s)
    w (sent_ s ++ [SendTransforms w ls (trackers_ s);
                   WriteConfig w ls (trackers_ s)]) (solves_ s).

Definition set_vTl (a : arr6) (l : Lighthouse) : Lighthouse :=
  MkLighthouse (params l) a (lighthouse_ready l).

(** ** What the file calls and does not define *)

Class Extern := {
  (** [NUM_SENSORS] of [deepdive.hh]; the loop counter over it is a
      [uint8_t], so it is below 256. *)
  NUM_SENSORS : nat;
  (** [tan] of libm. *)
  tan : double -> double;
  (** [ros::Time(round(t.toSec() / res) * res)]. *)
  quantise : double -> Time -> Time;
  (** Narrowing to [float], as [cv::Point3f] and [cv::Point2f] store it. *)
  to_float : double -> double;
  (** The calibration model behind [Correct] of [deepdive.hh]. *)
  correction_model : list double -> double * double -> double * double;
  (** The least-squares fit behind [Kabsch] of [deepdive.hh]. *)
  kabsch_fit : list Vec3 -> list Vec3 -> option Affine3d;
  (** [cv::solvePnPRansac] with the flags of the file; [Some (R, T)] when it
      returns true. *)
  solvePnPRansac : list Vec3 -> list Vec2 -> double -> option (Vec3 * Vec3);
  (** [cv::Rodrigues]. *)
  Rodrigues : Vec3 -> Mat3;
  (** [Eigen::AngleAxisd(m)]: [angle()] and [axis()]. *)
  AngleAxis : Mat3 -> double * Vec3;
  (** [Eigen::Quaterniond::toRotationMatrix]. *)
  toRotationMatrix : Quaternion -> Mat3
}.

(** ** The pipeline *)

Section Pipeline.
Context {E : Extern}.

Local Open Scope float_scope.

Definition Samples := list double.
Definition AxisMap := StdMap.t Z Samples.
Definition SensorMap := StdMap.t Z AxisMap.
Definition Bundle := StdMap.t Time SensorMap.
Definition BundleMap := StdMap.t string (StdMap.t string Bundle).
Definition CorMap := StdMap.t Time arr6.
Definition PoseMap := StdMap.t string (StdMap.t Time (StdMap.t string arr6)).

(** Modelled from the spec: [Mean] of [deepdive.hh], which is not among the
    sources. The samples of a bucket are reduced to their arithmetic mean;
    there is none for an empty bucket. *)
Definition Mean (v : Samples) : option double :=
  match v with
  | [] => None
  | _ => Some (fold_left PrimFloat.add v d0 / double_of_size (List.length v))
  end.

(** Modelled from the spec: [Correct] of [deepdive.hh], which is not among
    the sources. With the toggle off it is the identity. *)
Definition Correct (p : list double) (angles : double * double)
    (enabled : bool) : double * double :=
  if enabled then correction_model p angles else angles.

(** Modelled from the spec: [Kabsch] of [deepdive.hh], which is not among the
    sources. The columns of the two matrices are the two lists. Fewer than 3
    correspondences is a failure, and so is a fit that finds nothing; a
    failure comes with the identity in the output transform. *)
Definition Kabsch (pti ptj : list Vec3) : bool * Affine3d :=
  if (List.length pti <? 3)%nat then (false, AffineIdentity)
  else match kabsch_fit pti ptj with
       | Some A => (true, A)
       | None => (false, AffineIdentity)
       end.

(** Lines 130-141: [bundle[tserial][lserial][t][pt->sensor][a].push_back]. *)
Definition bundle_pulse (tserial lserial : string) (t : Time) (a : Z)
    (b : BundleMap) (pt : Pulse) : BundleMap :=
  StdMap.subscript [] tserial
    (StdMap.subscript [] lserial
       (StdMap.subscript [] t
          (StdMap.subscript [] (to_uint8 (sensor pt))
             (StdMap.subscript [] (to_uint8 a)
                (fun v => v ++ [angle pt]))))) b.

Definition bundle_measurements (res : double) (ms : MeasurementMap)
    : BundleMap :=
  fold_left
    (fun b mt =>
       let l := light (snd mt) in
       fold_left
         (bundle_pulse (frame_id l) (lighthouse l) (quantise res (fst mt))
            (axis l))
         (pulses l) b)
    ms [].

(** [aa.angle() * aa.axis()] of the rotation matrix [m]. *)
Definition axis_angle (m : Mat3) : Vec3 :=
  let '(ang, ax) := AngleAxis m in
  V3 (ang * vx ax) (ang * vy ax) (ang * vz ax).

(** The six assignments [a[0] = ...; ...; a[5] = ...]. *)
Definition assign6 (t r : Vec3) (a : arr6) : arr6 :=
  set6 5 (vz r) (set6 4 (vy r) (set6 3 (vx r)
    (set6 2 (vz t) (set6 1 (vy t) (set6 0 (vx t) a))))).

(** Lines 142-161: one pass over the corrections, writing [cor[t]] and adding
    up the height. *)
Definition bundle_correction (res : double) (acc : CorMap * double)
    (ct : Time * TransformStamped) : CorMap * double :=
  let t := quantise res (fst ct) in
  let tr := transform_translation (snd ct) in
  let aa := axis_angle (toRotationMatrix (transform_rotation (snd ct))) in
  (StdMap.subscript zero6 t (assign6 tr aa) (fst acc), snd acc + vz tr).

Definition bundle_corrections (res : double) (cs : CorrectionMap)
    : CorMap * double :=
  let r := fold_left (bundle_correction res) cs ([], d0) in
  (fst r,
   if StdMap.empty cs then snd r
   else snd r / double_of_size (StdMap.size cs)).

(** Lines 183-185. *)
Definition principal_distance : double :=
  let fov := 2.0944 in
  let w := 1.0 in
  w / (2.0 * tan (fov / 2.0)).

(** Lines 202-218: the correspondences of one tracker in one lighthouse at
    one time. *)
Definition sensor_correspondence (correct : bool) (lh : Lighthouse)
    (tr : Tracker) (sm : SensorMap) (acc : list Vec3 * list Vec2) (s : nat)
    : list Vec3 * list Vec2 :=
  let by_axis := StdMap.read [] (to_uint8 (Z.of_nat s)) sm in
  match Mean (StdMap.read [] 0%Z by_axis), Mean (StdMap.read [] 1%Z by_axis) with
  | Some a0, Some a1 =>
      let angles := Correct (params lh) (a0, a1) correct in
      let z := principal_distance in
      (fst acc ++ [V3 (to_float (nth (s * 6 + 0) (sensors tr) d0))
                      (to_float (nth (s * 6 + 1) (sensors tr) d0))
                      (to_float (nth (s * 6 + 2) (sensors tr) d0))],
       snd acc ++ [V2 (to_float (z * tan (fst angles)))
                      (to_float (z * tan (snd angles)))])
  | _, _ => acc
  end.

Definition sensor_correspondences (correct : bool) (lh : Lighthouse)
    (tr : Tracker) (sm : SensorMap) : list Vec3 * list Vec2 :=
  fold_left (sensor_correspondence correct lh tr sm) (seq 0 NUM_SENSORS)
    ([], []).

(** Lines 219-245: the pose of one instant, when there is one. *)
Definition pnp_instant (correct : bool) (lh : Lighthouse) (tr : Tracker)
    (sm : SensorMap) : option arr6 :=
  let '(obj, img) := sensor_correspondences correct lh tr sm in
  if (6 <? List.length obj)%nat then
    match solvePnPRansac obj img principal_distance with
    | Some (R, T) => Some (assign6 T (axis_angle (Rodrigues R)) zero6)
    | None => None
    end
  else None.

(** [poses[tt][bt][lt][0..5] = ...]. *)
Definition store_pose (tt : string) (bt : Time) (lt : string) (p : arr6)
    (poses : PoseMap) : PoseMap :=
  StdMap.subscript [] tt
    (StdMap.subscript [] bt
       (StdMap.subscript zero6 lt (fun _ => p))) poses.

(** Lines 189-248: lighthouses, then trackers, then time epochs. *)
Definition pnp_epochs (correct : bool) (lt : string * Lighthouse)
    (tt : string * Tracker) (b : Bundle) (poses : PoseMap) : PoseMap :=
  fold_left
    (fun poses bt =>
       match pnp_instant correct (snd lt) (snd tt) (snd bt) with
       | Some p => store_pose (fst tt) (fst bt) (fst lt) p poses
       | None => poses
       end)
    b poses.

Definition pnp_stage (correct : bool) (ls : LighthouseMap) (ts : TrackerMap)
    (bundle : BundleMap) : PoseMap :=
  fold_left
    (fun poses lt =>
       fold_left
         (fun poses tt =>
            pnp_epochs correct lt tt
              (StdMap.read [] (fst lt) (StdMap.read [] (fst tt) bundle))
              poses)
         ts poses)
    ls [].

(** [A.translation()] and the axis-angle of [A.linear()] written into a
    [double[6]] (lines 308-314 and 373-379). *)
Definition write_solution (A : Affine3d) (a : arr6) : arr6 :=
  assign6 (translation A) (axis_angle (linear A)) a.

Definition position (p : arr6) : Vec3 := V3 (c0 p) (c1 p) (c2 p).

(** Lines 270-291: a pair for every time at which the tracker has a pose in
    the slave [lt] and in the master [lm]. *)
Definition frame_corresp (lt lm : string) (ts : TrackerMap) (poses : PoseMap)
    : list (Vec3 * Vec3) :=
  fold_left
    (fun corresp tt =>
       fold_left
         (fun corresp pt =>
            match StdMap.find lt (snd pt), StdMap.find lm (snd pt) with
            | Some pl, Some pm => corresp ++ [(position pl, position pm)]
            | _, _ => corresp
            end)
         (StdMap.read [] (fst tt) poses) corresp)
    ts [].

(** Lines 293-314. *)
Definition slave_vTl (lt lm : string) (ts : TrackerMap) (poses : PoseMap)
    (a : arr6) : arr6 :=
  let corresp := frame_corresp lt lm ts poses in
  write_solution (snd (Kabsch (map fst corresp) (map snd corresp))) a.

(** Lines 261-265: [for (size_t i = 0; i < 6; i++) lt->second.vTl[0] = 0;]. *)
Definition master_vTl (a : arr6) : arr6 :=
  fold_left (fun a (i : nat) => set6 0 d0 a) (seq 0 6) a.

(** Lines 257-315: the first lighthouse is the master, the others are
    slaves. *)
Definition frame_chain (ls : LighthouseMap) (ts : TrackerMap)
    (poses : PoseMap) : LighthouseMap :=
  match ls with
  | [] => []
  | (lm, m) :: slaves =>
      (lm, set_vTl (master_vTl (vTl m)) m)
      :: map (fun lt =>
                (fst lt,
                 set_vTl (slave_vTl (fst lt) lm ts poses (vTl (snd lt)))
                   (snd lt)))
           slaves
  end.

(** [poses.find(tt) != end && poses[tt].find(t) != end &&
    poses[tt][t].find(lm) != end], with the pose found. *)
Definition pose_at (poses : PoseMap) (tt : string) (t : Time) (lm : string)
    : option arr6 :=
  match StdMap.find tt poses with
  | Some by_time =>
      match StdMap.find t by_time with
      | Some by_lighthouse => StdMap.find lm by_lighthouse
      | None => None
      end
  | None => None
  end.

(** Lines 331-343: [x], [y], [z] and [n] after the loop over the trackers. *)
Definition tracker_sum (lm : string) (poses : PoseMap) (t : Time)
    (ts : TrackerMap) : double * double * double * nat :=
  fold_left
    (fun acc tt =>
       let '(x, y, z, n) := acc in
       match pose_at poses (fst tt) t lm with
       | Some p => (x + c0 p, y + c1 p, z + c2 p, S n)
       | None => (x, y, z, n)
       end)
    ts (d0, d0, d0, 0%nat).

(** [offset_[i]] for an [offset_] of three entries. [main] only logs when
    there are not three, and the source then reads past the end of the
    vector; the zero given here for that case stands for no behaviour of
    the source, and what is stated of the target point is stated for three
    entries. *)
Definition offset_at (offset : list double) (i : nat) : double :=
  nth i offset d0.

(** Lines 330-357. *)
Definition world_pair (lm : string) (ts : TrackerMap) (poses : PoseMap)
    (offset : list double) (corresp : list (Vec3 * Vec3)) (ct : Time * arr6)
    : list (Vec3 * Vec3) :=
  let '(x, y, z, n) := tracker_sum lm poses (fst ct) ts in
  if (n =? StdMap.size ts)%nat then
    corresp ++
      [(V3 (x / double_of_size n) (y / double_of_size n)
           (z / double_of_size n),
        V3 (c0 (snd ct) + offset_at offset 0)
           (c1 (snd ct) + offset_at offset 1)
           (c2 (snd ct) + offset_at offset 2))]
  else corresp.

Definition world_corresp (lm : string) (ts : TrackerMap) (poses : PoseMap)
    (offset : list double) (cor : CorMap) : list (Vec3 * Vec3) :=
  fold_left (world_pair lm ts poses offset) cor [].

(** [lighthouses_.begin()->first]; the source has no value for it when there
    is no lighthouse. *)
Definition master_serial (ls : LighthouseMap) : string :=
  match ls with
  | [] => EmptyString
  | (lm, _) :: _ => lm
  end.

(** Lines 322-380. *)
Definition world_wTv (s : State) (poses : PoseMap) (cor : CorMap) : arr6 :=
  let corresp :=
    world_corresp (master_serial (lighthouses_ s)) (trackers_ s) poses
      (offset_ s) cor in
  write_solution (snd (Kabsch (map fst corresp) (map snd corresp))) (wTv_ s).

Definition solve_poses (s : State) : PoseMap :=
  pnp_stage (correct_ s) (lighthouses_ s) (trackers_ s)
    (bundle_measurements (res_ s) (measurements_ s)).

(** [bool Solve()]: the return value and the state it leaves. *)
Definition Solve (s : State) : bool * State :=
  let s := set_solves (S (solves_ s)) s in
  if StdMap.empty (measurements_ s) then (false, s)
  else
    let cor := fst (bundle_corrections (res_ s) (corrections_ s)) in
    let poses := solve_poses s in
    let ls := frame_chain (lighthouses_ s) (trackers_ s) poses in
    (true, set_graph ls (world_wTv s poses cor) s).

(** ** The callbacks *)

(** Lines 486-487. *)
Definition rejected (s : State) (p : Pulse) : bool :=
  PrimFloat.ltb (thresh_angle_ s / 57.2958) (angle p)
  || PrimFloat.ltb (duration p) (thresh_duration_ s / 1e6).

(** [v.erase(v.begin() + i)]. *)
Definition erase (i : nat) (v : list Pulse) : list Pulse :=
  firstn i v ++ skipn (S i) v.

(** Lines 483-491: [it] starts at [end()]; each turn tests [it > begin()],
    steps [it] back and, when the pulse under it is rejected, erases it,
    which leaves [it] at the same offset. [it] is the offset from
    [begin()]. *)
Fixpoint erase_loop (s : State) (it : nat) (v : list Pulse) (deleted : nat)
    : list Pulse * nat :=
  match it with
  | O => (v, deleted)
  | S it' =>
      match nth_error v it' with
      | Some p =>
          if rejected s p then erase_loop s it' (erase it' v) (S deleted)
          else erase_loop s it' v deleted
      | None => erase_loop s it' v deleted
      end
  end.

Definition surviving (s : State) (v : list Pulse) : list Pulse :=
  fst (erase_loop s (List.length v) v 0).

Definition with_pulses (v : list Pulse) (l : Light) : Light :=
  MkLight (frame_id l) (lighthouse l) (axis l) v.

(** Lines 475-479. *)
Definition light_gate (s : State) (msg : Light) : bool :=
  negb (recording_ s)
  || negb (StdMap.mem (frame_id msg) (trackers_ s))
  || negb (StdMap.mem (lighthouse msg) (lighthouses_ s))
  || negb (match StdMap.find (frame_id msg) (trackers_ s) with
           | Some t => tracker_ready t
           | None => false
           end)
  || negb (match StdMap.find (lighthouse msg) (lighthouses_ s) with
           | Some l => lighthouse_ready l
           | None => false
           end).

(** [void LightCallback(msg)], with [now] the reading of [ros::Time::now()]. *)
Definition LightCallback (now : Time) (msg : Light) (s : State) : State :=
  if light_gate s msg then s
  else
    let data := with_pulses (surviving s (pulses msg)) msg in
    if (Z.of_nat (List.length (pulses data)) <? size_t_of_int (thresh_count_ s))%Z
    then s
    else
      set_measurements
        (StdMap.subscript (MkMeasurement (MkLight EmptyString EmptyString 0 []))
           now (fun _ => MkMeasurement data) (measurements_ s))
        s.

Record Response := MkResponse { success : bool; message : string }.

(** [bool TriggerCallback(req, res)]: the response as it is left in [res],
    which starts as [res0], and the state. The service call itself always
    returns true. *)
Definition TriggerCallback (res0 : Response) (s : State) : Response * State :=
  let res :=
    if negb (recording_ s) then MkResponse true "Recording started."
    else res0 in
  let '(res, s') :=
    if recording_ s then
      let '(ok, s1) := Solve s in
      (MkResponse ok
         (if ok then "Recording stopped. Solution found."
          else "Recording stopped. Solution not found."),
       set_measurements [] s1)
    else (res, s) in
  (res, set_recording (negb (recording_ s')) s').

(** [void CorrectionCallback(msg)]: [msg] is the list of transforms. *)
Definition CorrectionCallback (now : Time) (msg : list TransformStamped)
    (s : State) : State :=
  if negb (recording_ s) then s
  else
    fold_left
      (fun s it =>
         if String.eqb (header_frame_id it) (frame_world_ s)
            && String.eqb (child_frame_id it) (frame_body_ s)
         then
           set_corrections
             (StdMap.subscript it now (fun _ => it) (corrections_ s)) s
         else s)
      msg s.

(** [void TimerCallback(event)]. *)
Definition TimerCallback (s : State) : State :=
  snd (TriggerCallback (MkResponse false EmptyString) s).

End Pipeline.

(** ** Vocabulary of the properties *)

Section Vocabulary.
Context {E : Extern}.

(** A pulse that the filter of [LightCallback] lets through. *)
Definition kept (s : State) (p : Pulse) : bool := negb (rejected s p).

(** Two lighthouse entries with the same serial and the same parameters:
    all that the pose stage reads of a lighthouse. *)
Definition same_beacon (a b : string * Lighthouse) : Prop :=
  fst a = fst b /\ params (snd a) = params (snd b).

(** Sensor [s] has samples on both axes in the bucket [sm]. *)
Definition has_both_axes (sm : SensorMap) (s : nat) : bool :=
  let by_axis := StdMap.read [] (to_uint8 (Z.of_nat s)) sm in
  match StdMap.read [] 0%Z by_axis, StdMap.read [] 1%Z by_axis with
  | _ :: _, _ :: _ => true
  | _, _ => false
  end.

(** The sensors that give a correspondence at one instant. *)
Definition valid_sensors (sm : SensorMap) : list nat :=
  filter (has_both_axes sm) (seq 0 NUM_SENSORS).

(** A pose written over what was there, or what was there. *)
Definition or_keep (new old : option arr6) : option arr6 :=
  match new with
  | Some p => Some p
  | None => old
  end.

(** Every time map of a bundle is ordered. *)
Definition bundle_ordered (bundle : BundleMap) : Prop :=
  forall tt lt,
    StdMap.ordered (StdMap.read [] lt (StdMap.read [] tt bundle)).





(** The poses the trackers have at time [t] in the frame of [lm], in tracker
    order. *)
Definition tracker_poses (lm : string) (poses : PoseMap) (t : Time)
    (ts : TrackerMap) : list arr6 :=
  flat_map
    (fun tt =>
       match pose_at poses (fst tt) t lm with
       | Some p => [p]
       | None => []
       end)
    ts.

(** No tracker is without a pose at time [t] in the frame of [lm]. *)
Definition every_tracker_has_pose (lm : string) (poses : PoseMap) (t : Time)
    (ts : TrackerMap) : bool :=
  forallb
    (fun tt =>
       match pose_at poses (fst tt) t lm with
       | Some _ => true
       | None => false
       end)
    ts.

(** The arithmetic mean in the words of the spec: the sum over the count. *)
Definition arithmetic_mean (xs : list double) : double :=
  (fold_left PrimFloat.add xs d0 / double_of_size (List.length xs))%float.

End Vocabulary.

(** ** A recorded session to run the model on

    [Stand_in] fills the library calls with simple total functions: buckets
    of 0.1 s on the nanosecond clock, a pose solver that answers with the
    first object point, a fit that answers with the first target point. *)

Definition Stand_in : Extern := {|
  NUM_SENSORS := 8;
  tan := fun x => x;
  quantise := fun _ t => ((t + 50000000) / 100000000 * 100000000)%Z;
  to_float := fun x => x;
  correction_model := fun _ a => a;
  kabsch_fit := fun _ ptj =>
    match ptj with
    | q :: _ => Some (Affine q Identity3)
    | [] => None
    end;
  solvePnPRansac := fun obj _ _ =>
    match obj with
    | o :: _ => Some (V3 d0 d0 d0, o)
    | [] => None
    end;
  Rodrigues := fun _ => Identity3;
  AngleAxis := fun _ => (d0, V3 d1 d0 d0);
  toRotationMatrix := fun _ => Identity3
|}.

Definition sample_sensors : list double :=
  flat_map (fun i => [double_of_size i; 0.5; 0.25; 0; 0; 1]%float) (seq 1 8).

Definition sample_tracker : Tracker := MkTracker zero6 sample_sensors true.

(** The master is configured with a transform guess away from the origin. *)
Definition sample_master : Lighthouse :=
  MkLighthouse [] (Arr6 1 2 3 0 0 0)%float true.

Definition sample_slave : Lighthouse :=
  MkLighthouse [] (Arr6 4 5 6 0 0 0)%float true.

Definition sample_idle : State := {|
  trackers_ := [("TRK-A"%string, sample_tracker)];
  lighthouses_ := [("LHB-1"%string, sample_master);
                   ("LHB-2"%string, sample_slave)];
  measurements_ := [];
  corrections_ := [];
  frame_world_ := "world";
  frame_body_ := "body";
  thresh_count_ := 4%Z;
  thresh_angle_ := 60.0%float;
  thresh_duration_ := 1.0%float;
  recording_ := false;
  correct_ := false;
  res_ := 0.1%float;
  offset_ := [0; 0; 0.5]%float;
  wTv_ := zero6;
  sent_ := [];
  solves_ := 0
|}.

Definition sample_pulses : list Pulse :=
  map (fun i => MkPulse (Z.of_nat i) 0.125%float 0x1p-16%float) (seq 0 8).

Definition sample_light (lh : string) (a : Z) : Light :=
  MkLight "TRK-A" lh a sample_pulses.

Definition sample_correction : TransformStamped :=
  MkTransformStamped "world" "body" (V3 1 1 2)%float (Quat 1 0 0 0)%float.

(** Recording is started, four sweeps and one correction arrive. *)
Definition sample_recording : State :=
  CorrectionCallback 5%Z [sample_correction]
    (LightCallback 4%Z (sample_light "LHB-2" 1)
       (LightCallback 3%Z (sample_light "LHB-2" 0)
          (LightCallback 2%Z (sample_light "LHB-1" 1)
             (LightCallback 1%Z (sample_light "LHB-1" 0)
                (snd (@TriggerCallback Stand_in (MkResponse false "")
                        sample_idle)))))).

(** The sample node just after the start trigger. *)
Definition sample_started : State :=
  snd (@TriggerCallback Stand_in (MkResponse false "") sample_idle).

(** A sweep with four good pulses from a tracker that is not configured. *)
Definition stray_light : Light :=
  MkLight "TRK-Z" "LHB-1" 0%Z
    (map (fun i => MkPulse (Z.of_nat i) 0.125%float 0x1p-16%float) (seq 0 4)).

(** ** Start-up and the event loop *)

(** The parameter server as [main] reads it: [None] where [getParam]
    returns false and leaves its argument as it was. [p_serial],
    [p_transform] and [p_extrinsics] stand for the keys [name + "/serial"],
    [name + "/transform"] and [name + "/extrinsics"]. *)
Record ParamServer := MkParamServer {
  p_offline : option bool;
  p_frames_world : option string;
  p_frames_body : option string;
  p_thresholds_count : option Z;
  p_thresholds_angle : option double;
  p_thresholds_duration : option double;
  p_resolution : option double;
  p_correct : option bool;
  p_offset : option (list double);
  p_lighthouses : option (list string);
  p_trackers : option (list string);
  p_serial : string -> option string;
  p_transform : string -> option (list double);
  p_extrinsics : string -> option (list double)
}.

(** [nh.getParam(key, var)]: the value of [var] afterwards. *)
Definition getParam {A : Type} (found : option A) (var : A) : A :=
  match found with
  | Some v => v
  | None => var
  end.

(** The globals as their initialisers leave them (lines 37-73). *)
Definition static_init : State := {|
  trackers_ := [];
  lighthouses_ := [];
  measurements_ := [];
  corrections_ := [];
  frame_world_ := "world";
  frame_body_ := "body";
  thresh_count_ := 4%Z;
  thresh_angle_ := 60.0%float;
  thresh_duration_ := 1.0%float;
  recording_ := false;
  correct_ := false;
  res_ := 0.1%float;
  offset_ := [];
  wTv_ := zero6;
  sent_ := [];
  solves_ := 0
|}.

(** A value-initialised [Lighthouse] and [Tracker], as [operator[]] inserts
    them. *)
Definition new_lighthouse : Lighthouse := MkLighthouse [] zero6 false.
Definition new_tracker : Tracker := MkTracker zero6 [] false.

Section Startup.
(** [Eigen::AngleAxisd(q)] for a quaternion [q]: [angle()] and [axis()]. *)
Variable AngleAxis_of_quaternion : Quaternion -> double * Vec3.

(** [aa.angle() * aa.axis()] for [Quaterniond q(v[6], v[3], v[4], v[5])]. *)
Definition config_rotation (v : list double) : Vec3 :=
  let '(ang, ax) :=
    AngleAxis_of_quaternion
      (Quat (nth 6 v d0) (nth 3 v d0) (nth 4 v d0) (nth 5 v d0)) in
  V3 (ang * vx ax)%float (ang * vy ax)%float (ang * vz ax)%float.

Definition config_translation (v : list double) : Vec3 :=
  V3 (nth 0 v d0) (nth 1 v d0) (nth 2 v d0).

(** Lines 665-685: one turn of the loop over the lighthouse names. *)
Definition load_lighthouse (ps : ParamServer) (ls : LighthouseMap)
    (name : string) : LighthouseMap :=
  let serial := getParam (p_serial ps name) EmptyString in
  let transform := getParam (p_transform ps name) [] in
  if negb (List.length transform =? 7)%nat then ls
  else
    StdMap.subscript new_lighthouse serial
      (fun l =>
         MkLighthouse (params l)
           (assign6 (config_translation transform)
              (config_rotation transform) (vTl l))
           false)
      ls.

(** Lines 692-711: one turn of the loop over the tracker names. *)
Definition load_tracker (ps : ParamServer) (ts : TrackerMap)
    (name : string) : TrackerMap :=
  let serial := getParam (p_serial ps name) EmptyString in
  let extrinsics := getParam (p_extrinsics ps name) [] in
  if negb (List.length extrinsics =? 7)%nat then ts
  else
    StdMap.subscript new_tracker serial
      (fun t =>
         MkTracker
           (assign6 (config_translation extrinsics)
              (config_rotation extrinsics) (bTh t))
           (sensors t) false)
      ts.

(** [int main()] up to [ros::spin()]: the globals when the first callback
    runs. [calfile_], [frame_vive_], [frame_truth_], [visualize_] and the
    publishers are no fields of [State] and are left out; [ROS_FATAL] logs
    and goes on. *)
Definition main (ps : ParamServer) : State :=
  let g := static_init in
  let offline := getParam (p_offline ps) false in
  let recording := if offline then true else recording_ g in
  let wTv := fold_left (fun a i => set6 i d0 a) (seq 0 6) (wTv_ g) in
  let ls :=
    fold_left (load_lighthouse ps) (getParam (p_lighthouses ps) [])
      (lighthouses_ g) in
  let ts :=
    fold_left (load_tracker ps) (getParam (p_trackers ps) [])
      (trackers_ g) in
  {| trackers_ := ts;
     lighthouses_ := ls;
     measurements_ := measurements_ g;
     corrections_ := corrections_ g;
     frame_world_ := getParam (p_frames_world ps) (frame_world_ g);
     frame_body_ := getParam (p_frames_body ps) (frame_body_ g);
     thresh_count_ := getParam (p_thresholds_count ps) (thresh_count_ g);
     thresh_angle_ := getParam (p_thresholds_angle ps) (thresh_angle_ g);
     thresh_duration_ :=
       getParam (p_thresholds_duration ps) (thresh_duration_ g);
     recording_ := recording;
     correct_ := getParam (p_correct ps) (correct_ g);
     res_ := getParam (p_resolution ps) (res_ g);
     offset_ := getParam (p_offset ps) (offset_ g);
     wTv_ := wTv;
     sent_ := sent_ g ++ [SendTransforms wTv ls ts];
     solves_ := solves_ g |}.

End Startup.

(** The node while [ros::spin()] runs: the globals, and whether the one-shot
    [timer_] is waiting to fire. *)
Record Node := MkNode { globals : State; timer_pending : bool }.

(** What [ros::spin()] dispatches to the callbacks of the file, one at a
    time. *)
Inductive Event :=
| EvLight (now : Time) (msg : Light)
| EvCorrection (now : Time) (msg : list TransformStamped)
| EvTrigger
| EvTimer.

Section Spin.
Context {E : Extern}.

(** One dispatch. [LightCallback] begins with [timer_.stop();
    timer_.start()] (lines 472-473); the timer is created stopped and fires
    once per start (line 743). *)
Definition dispatch (n : Node) (e : Event) : Node :=
  match e with
  | EvLight now msg => MkNode (LightCallback now msg (globals n)) true
  | EvCorrection now msg =>
      MkNode (CorrectionCallback now msg (globals n)) (timer_pending n)
  | EvTrigger =>
      MkNode (snd (TriggerCallback (MkResponse false EmptyString) (globals n)))
        (timer_pending n)
  | EvTimer =>
      if timer_pending n then MkNode (TimerCallback (globals n)) false
      else n
  end.

Definition spin (events : list Event) (n : Node) : Node :=
  fold_left dispatch events n.

(** The calls of [TriggerCallback] that a run makes. *)
Fixpoint triggers (events : list Event) (pending : bool) : nat :=
  match events with
  | [] => 0
  | EvLight _ _ :: rest => triggers rest true
  | EvCorrection _ _ :: rest => triggers rest pending
  | EvTrigger :: rest => S (triggers rest pending)
  | EvTimer :: rest =>
      if pending then S (triggers rest false) else triggers rest pending
  end.

End Spin.

(** ** More vocabulary *)

(** A buffered light message that the filter and the count of
    [LightCallback] would let in under the thresholds of [s]. *)
Definition admissible (s : State) (l : Light) : Prop :=
  (forall p, In p (pulses l) -> rejected s p = false) /\
  (size_t_of_int (thresh_count_ s) <= Z.of_nat (List.length (pulses l)))%Z.

(** A stored correction from [frame_world_] to [frame_body_]. *)
Definition world_to_body (s : State) (c : TransformStamped) : Prop :=
  header_frame_id c = frame_world_ s /\ child_frame_id c = frame_body_ s.

(** The parts of the globals that no callback of the file writes: the
    trackers, the thresholds and switches, and of each lighthouse all but
    [vTl]. *)
Definition same_setup (s s' : State) : Prop :=
  trackers_ s' = trackers_ s /\
  map (fun kl => (fst kl, params (snd kl), lighthouse_ready (snd kl)))
    (lighthouses_ s')
  = map (fun kl => (fst kl, params (snd kl), lighthouse_ready (snd kl)))
      (lighthouses_ s) /\
  frame_world_ s' = frame_world_ s /\ frame_body_ s' = frame_body_ s /\
  thresh_count_ s' = thresh_count_ s /\ thresh_angle_ s' = thresh_angle_ s /\
  thresh_duration_ s' = thresh_duration_ s /\ correct_ s' = correct_ s /\
  res_ s' = res_ s /\ offset_ s' = offset_ s.

(** [recording_] as 0 or 1. *)
Definition recording_bit (s : State) : nat :=
  if recording_ s then 1 else 0.

(** Every time map of the poses is ordered. *)
Definition poses_ordered (poses : PoseMap) : Prop :=
  forall tt, StdMap.ordered (StdMap.read [] tt poses).

(** The pairs of the frame chain for one tracker at one time. *)
Definition frame_pair (lt lm : string)
    (pt : Time * StdMap.t string arr6) : list (Vec3 * Vec3) :=
  match StdMap.find lt (snd pt), StdMap.find lm (snd pt) with
  | Some pl, Some pm => [(position pl, position pm)]
  | _, _ => []
  end.


Section MoreVocabulary.
Context {E : Extern}.

(** A measurement with at least one pulse, from tracker [tt] in lighthouse
    [lt], in the bucket [t]. *)
Definition feeds_bucket (res : double) (tt lt : string) (t : Time)
    (mt : Time * Measurement) : bool :=
  let l := light (snd mt) in
  String.eqb (frame_id l) tt && String.eqb (lighthouse l) lt
  && Z.eqb (quantise res (fst mt)) t
  && match pulses l with [] => false | _ => true end.

End MoreVocabulary.

(** The loop of [CorrectionCallback], one turn (lines 527-532). *)
Definition store_correction (now : Time) (s : State) (it : TransformStamped)
    : State :=
  if String.eqb (header_frame_id it) (frame_world_ s)
     && String.eqb (child_frame_id it) (frame_body_ s)
  then set_corrections (StdMap.subscript it now (fun _ => it) (corrections_ s)) s
  else s.

(** The bundle has a time bucket [t] for tracker [tt] in lighthouse [lt]. *)
Definition has_bucket (tt lt : string) (t : Time) (b : BundleMap) : bool :=
  StdMap.mem t (StdMap.read [] lt (StdMap.read [] tt b)).

(** ** More of the sample session *)

Definition sample_node : Node := MkNode sample_idle false.

(** A start trigger, four sweeps and one correction. *)
Definition sample_feed : list Event :=
  [EvTrigger;
   EvLight 1%Z (sample_light "LHB-1" 0);
   EvLight 2%Z (sample_light "LHB-1" 1);
   EvLight 3%Z (sample_light "LHB-2" 0);
   EvLight 4%Z (sample_light "LHB-2" 1);
   EvCorrection 5%Z [sample_correction]].

(** The sample node after the start trigger, with a negative minimum
    count. *)
Definition sample_negative_count : State := {|
  trackers_ := trackers_ sample_started;
  lighthouses_ := lighthouses_ sample_started;
  measurements_ := measurements_ sample_started;
  corrections_ := corrections_ sample_started;
  frame_world_ := frame_world_ sample_started;
  frame_body_ := frame_body_ sample_started;
  thresh_count_ := (-1)%Z;
  thresh_angle_ := thresh_angle_ sample_started;
  thresh_duration_ := thresh_duration_ sample_started;
  recording_ := recording_ sample_started;
  correct_ := correct_ sample_started;
  res_ := res_ sample_started;
  offset_ := offset_ sample_started;
  wTv_ := wTv_ sample_started;
  sent_ := sent_ sample_started;
  solves_ := solves_ sample_started
|}.

(** The recorded sample session with other transform guesses in the
    lighthouses and in [wTv_]. *)
Definition sample_other_guess : State :=
  set_graph
    [("LHB-1"%string, MkLighthouse [] (Arr6 9 9 9 0 0 0)%float true);
     ("LHB-2"%string, MkLighthouse [] (Arr6 7 7 7 1 1 1)%float true)]
    (Arr6 5 5 5 5 5 5)%float sample_recording.

(** A parameter server that lists the lighthouse with the greater serial
    first, and a quaternion conversion that answers with no rotation. *)
Definition sample_params : ParamServer := {|
  p_offline := Some false;
  p_frames_world := Some "world"%string;
  p_frames_body := Some "body"%string;
  p_thresholds_count := Some 4%Z;
  p_thresholds_angle := Some 60.0%float;
  p_thresholds_duration := Some 1.0%float;
  p_resolution := Some 0.1%float;
  p_correct := Some false;
  p_offset := Some [0; 0; 0.5]%float;
  p_lighthouses := Some ["lighthouse_b"%string; "lighthouse_a"%string];
  p_trackers := Some ["tracker_a"%string];
  p_serial := fun name =>
    if String.eqb name "lighthouse_a" then Some "LHB-1"%string
    else if String.eqb name "lighthouse_b" then Some "LHB-2"%string
    else if String.eqb name "tracker_a" then Some "TRK-A"%string
    else None;
  p_transform := fun name =>
    if String.eqb name "lighthouse_a" then Some [1; 2; 3; 0; 0; 0; 1]%float
    else if String.eqb name "lighthouse_b" then Some [4; 5; 6; 0; 0; 0; 1]%float
    else None;
  p_extrinsics := fun name =>
    if String.eqb name "tracker_a" then Some [0; 0; 0; 0; 0; 0; 1]%float
    else None
|}.

Definition sample_angle_axis (q : Quaternion) : double * Vec3 :=
  (d0, V3 d1 d0 d0).

(** * Properties *)

(** ** Key orders *)

Lemma ascii_compare_refl (a : ascii) : Ascii.compare a a = Eq.
Proof. unfold Ascii.compare; apply N.compare_refl. Qed.

Lemma ascii_compare_lt_trans (a b c : ascii) :
  Ascii.compare a b = Lt -> Ascii.compare b c = Lt -> Ascii.compare a c = Lt.
Proof. unfold Ascii.compare; rewrite !N.compare_lt_iff; lia. Qed.

Lemma string_compare_refl (s : string) : String.compare s s = Eq.
Proof.
  induction s as [|a s IH]; simpl; [reflexivity|].
  now rewrite ascii_compare_refl.
Qed.

Lemma string_compare_lt_trans (a b c : string) :
  String.compare a b = Lt -> String.compare b c = Lt -> String.compare a c = Lt.
Proof.
  revert b c; induction a as [|x a IH]; intros [|y b] [|z c]; simpl;
    try discriminate; try reflexivity.
  destruct (Ascii.compare x y) eqn:Exy; try discriminate;
    destruct (Ascii.compare y z) eqn:Eyz; try discriminate; intros Hab Hbc.
  - apply Ascii.compare_eq_iff in Exy, Eyz; subst.
    rewrite ascii_compare_refl; eauto.
  - apply Ascii.compare_eq_iff in Exy; subst. now rewrite Eyz.
  - apply Ascii.compare_eq_iff in Eyz; subst. now rewrite Exy.
  - now rewrite (ascii_compare_lt_trans _ _ _ Exy Eyz).
Qed.

#[export] Instance OrdKeyLaws_Z : OrdKeyLaws Z.
Proof.
  split; simpl.
  - apply Z.compare_refl.
  - apply Z.compare_eq.
  - intros a b c; rewrite !Z.compare_lt_iff; lia.
  - intros a b; rewrite Z.compare_gt_iff, Z.compare_lt_iff; lia.
Qed.

#[export] Instance OrdKeyLaws_string : OrdKeyLaws string.
Proof.
  split; simpl.
  - apply string_compare_refl.
  - apply String.compare_eq_iff.
  - apply string_compare_lt_trans.
  - intros a b Hab. rewrite String.compare_antisym, Hab. reflexivity.
Qed.

(** ** [std::map] *)

Section MapFacts.
Context {K : Type} `{OrdKeyLaws K}.

Lemma key_eq_dec (a b : K) : {a = b} + {a <> b}.
Proof.
  destruct (kcmp a b) eqn:Hc.
  - left. now apply kcmp_eq.
  - right. intros ->. rewrite kcmp_refl in Hc. discriminate.
  - right. intros ->. rewrite kcmp_refl in Hc. discriminate.
Qed.

Lemma find_subscript_same {V} (d : V) (k : K) (f : V -> V) (m : StdMap.t K V) :
  StdMap.find k (StdMap.subscript d k f m) = Some (f (StdMap.read d k m)).
Proof.
  unfold StdMap.read.
  induction m as [|[k' v] m IH]; simpl.
  - now rewrite kcmp_refl.
  - destruct (kcmp k k') eqn:Hc; simpl.
    + now rewrite Hc.
    + now rewrite kcmp_refl.
    + now rewrite Hc.
Qed.

Lemma find_subscript_other {V} (d : V) (k k0 : K) (f : V -> V)
    (m : StdMap.t K V) :
  k0 <> k ->
  StdMap.find k0 (StdMap.subscript d k f m) = StdMap.find k0 m.
Proof.
  intros Hne.
  induction m as [|[k' v] m IH]; simpl.
  - destruct (kcmp k0 k) eqn:Hc; try reflexivity.
    now apply kcmp_eq in Hc.
  - destruct (kcmp k k') eqn:Hc; simpl.
    + apply kcmp_eq in Hc; subst k'.
      destruct (kcmp k0 k) eqn:Hc0; try reflexivity.
      now apply kcmp_eq in Hc0.
    + destruct (kcmp k0 k) eqn:Hc0.
      * now apply kcmp_eq in Hc0.
      * now rewrite (kcmp_lt_trans _ _ _ Hc0 Hc).
      * reflexivity.
    + now rewrite IH.
Qed.

Lemma read_subscript_same {V} (d : V) (k : K) (f : V -> V) (m : StdMap.t K V) :
  StdMap.read d k (StdMap.subscript d k f m) = f (StdMap.read d k m).
Proof. unfold StdMap.read at 1. now rewrite find_subscript_same. Qed.

Lemma read_subscript_other {V} (d : V) (k k0 : K) (f : V -> V)
    (m : StdMap.t K V) :
  k0 <> k ->
  StdMap.read d k0 (StdMap.subscript d k f m) = StdMap.read d k0 m.
Proof. intros Hne. unfold StdMap.read. now rewrite find_subscript_other. Qed.

Lemma above_find {V} (k : K) (m : StdMap.t K V) :
  StdMap.above k m -> StdMap.find k m = None.
Proof. destruct m as [|[k' v] m]; simpl; [easy|]. now intros [-> _]. Qed.

Lemma above_trans {V} (a b : K) (m : StdMap.t K V) :
  kcmp a b = Lt -> StdMap.above b m -> StdMap.above a m.
Proof.
  intros Hab. induction m as [|[k v] m IH]; simpl; [easy|].
  intros [Hbk Hm]. split; [eapply kcmp_lt_trans; eauto | auto].
Qed.

Lemma above_subscript {V} (d : V) (a k : K) (f : V -> V) (m : StdMap.t K V) :
  kcmp a k = Lt -> StdMap.above a m -> StdMap.above a (StdMap.subscript d k f m).
Proof.
  intros Hak. induction m as [|[k' v] m IH]; simpl; [easy|].
  intros [Hak' Hm]. destruct (kcmp k k'); simpl; auto.
Qed.

(** [operator[]] keeps a map ordered. *)
Lemma ordered_subscript {V} (d : V) (k : K) (f : V -> V) (m : StdMap.t K V) :
  StdMap.ordered m -> StdMap.ordered (StdMap.subscript d k f m).
Proof.
  induction m as [|[k' v] m IH]; simpl; [easy|].
  intros [Hab Hm]. destruct (kcmp k k') eqn:Hc; simpl.
  - auto.
  - repeat split; auto. eapply above_trans; eauto.
  - split; auto. apply above_subscript; auto. now apply kcmp_gt_lt.
Qed.

(** A loop over an ordered map, seen through an observation [obs] that only
    the turn at key [k] can change. *)
Lemma fold_ordered_obs {V A X} (step : A -> K * V -> A) (obs : A -> X)
    (k : K) (g : V -> X -> X) (m : StdMap.t K V) :
  StdMap.ordered m ->
  (forall a v, obs (step a (k, v)) = g v (obs a)) ->
  (forall a k' v, k' <> k -> obs (step a (k', v)) = obs a) ->
  forall a,
    obs (fold_left step m a) =
    match StdMap.find k m with
    | Some v => g v (obs a)
    | None => obs a
    end.
Proof.
  intros Hord Hsame Hother.
  assert (Hskip : forall m' a, StdMap.find (V:=V) k m' = None ->
            StdMap.ordered m' -> obs (fold_left step m' a) = obs a).
  { induction m' as [|[k' v] m' IH]; intros a Hf Ho; simpl in *;
      [reflexivity|].
    destruct Ho as [Hab Hm].
    destruct (kcmp k k') eqn:Hc; try discriminate.
    - rewrite IH.
      + apply Hother. intros ->. rewrite kcmp_refl in Hc. discriminate.
      + apply above_find. eapply above_trans; eauto.
      + exact Hm.
    - rewrite IH; auto.
      apply Hother. intros ->. rewrite kcmp_refl in Hc. discriminate. }
  induction m as [|[k' v] m IH]; simpl; intros a; [reflexivity|].
  destruct Hord as [Hab Hm].
  destruct (kcmp k k') eqn:Hc.
  - apply kcmp_eq in Hc; subst k'.
    rewrite Hskip; auto. now apply above_find.
  - rewrite Hskip; auto.
    + apply Hother. intros ->. rewrite kcmp_refl in Hc. discriminate.
    + apply above_find. eapply above_trans; eauto.
  - rewrite IH; auto. rewrite Hother; auto.
    intros ->. rewrite kcmp_refl in Hc. discriminate.
Qed.

(** A loop none of whose turns changes the observation. *)
Lemma fold_obs_unchanged {V A X} (step : A -> K * V -> A) (obs : A -> X)
    (m : StdMap.t K V) :
  (forall a kv, obs (step a kv) = obs a) ->
  forall a, obs (fold_left step m a) = obs a.
Proof.
  intros Hstep. induction m as [|kv m IH]; simpl; intros a; [reflexivity|].
  now rewrite IH, Hstep.
Qed.

End MapFacts.

(** ** Arrays and the solution writes *)

Lemma assign6_overwrites (t r : Vec3) (a : arr6) :
  assign6 t r a = Arr6 (vx t) (vy t) (vz t) (vx r) (vy r) (vz r).
Proof. reflexivity. Qed.

(** The loop at the master writes component 0 six times and no other. *)
Lemma master_vTl_writes_first_only (a : arr6) :
  master_vTl a = Arr6 d0 (c1 a) (c2 a) (c3 a) (c4 a) (c5 a).
Proof. reflexivity. Qed.

Lemma master_vTl_idem (a : arr6) : master_vTl (master_vTl a) = master_vTl a.
Proof. reflexivity. Qed.

Section PipelineFacts.
Context {E : Extern}.

Lemma write_solution_overwrites (A : Affine3d) (a b : arr6) :
  write_solution A a = write_solution A b.
Proof. reflexivity. Qed.

Lemma Kabsch_few (pti ptj : list Vec3) :
  (List.length pti < 3)%nat -> Kabsch pti ptj = (false, AffineIdentity).
Proof.
  intros Hlt. unfold Kabsch.
  destruct (Nat.ltb_spec (List.length pti) 3); [reflexivity | lia].
Qed.

Lemma Kabsch_failure (pti ptj : list Vec3) :
  fst (Kabsch pti ptj) = false -> snd (Kabsch pti ptj) = AffineIdentity.
Proof.
  unfold Kabsch.
  destruct (List.length pti <? 3)%nat; [reflexivity|].
  destruct (kabsch_fit pti ptj); [discriminate | reflexivity].
Qed.

(** With Eigen's axis-angle of the identity matrix (angle 0 about the x
    axis), the identity transform is written as six zeros. *)
Lemma write_solution_identity (a : arr6) :
  AngleAxis Identity3 = (d0, V3 d1 d0 d0) ->
  write_solution AffineIdentity a = zero6.
Proof.
  intros Haa. unfold write_solution, axis_angle. simpl linear.
  rewrite Haa. reflexivity.
Qed.

(** *** [Solve] *)

Lemma Solve_empty (s : State) :
  StdMap.empty (measurements_ s) = true ->
  Solve s = (false, set_solves (S (solves_ s)) s).
Proof. intros He. unfold Solve. simpl. now rewrite He. Qed.

Lemma Solve_nonempty (s : State) :
  StdMap.empty (measurements_ s) = false ->
  Solve s =
  (true,
   set_graph (frame_chain (lighthouses_ s) (trackers_ s) (solve_poses s))
     (world_wTv s (solve_poses s)
        (fst (bundle_corrections (res_ s) (corrections_ s))))
     (set_solves (S (solves_ s)) s)).
Proof. intros He. unfold Solve. simpl. now rewrite He. Qed.

Lemma Solve_cases (s : State) :
  StdMap.empty (measurements_ s) = true \/ StdMap.empty (measurements_ s) = false.
Proof. destruct (StdMap.empty (measurements_ s)); auto. Qed.

Lemma Solve_counts (s : State) : solves_ (snd (Solve s)) = S (solves_ s).
Proof.
  destruct (Solve_cases s) as [He|He];
    [rewrite Solve_empty | rewrite Solve_nonempty]; auto.
Qed.

(** [Solve] writes the transform graph and nothing else of the session. *)
Lemma Solve_frame (s : State) :
  let s' := snd (Solve s) in
  trackers_ s' = trackers_ s /\ measurements_ s' = measurements_ s /\
  corrections_ s' = corrections_ s /\ recording_ s' = recording_ s /\
  correct_ s' = correct_ s /\ res_ s' = res_ s /\ offset_ s' = offset_ s.
Proof.
  destruct (Solve_cases s) as [He|He];
    [rewrite Solve_empty | rewrite Solve_nonempty]; auto; simpl; tauto.
Qed.

Lemma sensor_correspondences_params (c : bool) (lh lh' : Lighthouse)
    (tr : Tracker) (sm : SensorMap) :
  params lh = params lh' ->
  sensor_correspondences c lh tr sm = sensor_correspondences c lh' tr sm.
Proof.
  intros Hp. unfold sensor_correspondences.
  generalize (@nil Vec3, @nil Vec2). generalize (seq 0 NUM_SENSORS).
  induction l as [|x l IH]; intros acc; simpl; [reflexivity|].
  rewrite IH. unfold sensor_correspondence. now rewrite Hp.
Qed.

Lemma pnp_instant_params (c : bool) (lh lh' : Lighthouse) (tr : Tracker)
    (sm : SensorMap) :
  params lh = params lh' -> pnp_instant c lh tr sm = pnp_instant c lh' tr sm.
Proof.
  intros Hp. unfold pnp_instant.
  now rewrite (sensor_correspondences_params c lh lh' tr sm Hp).
Qed.

Lemma pnp_epochs_params (c : bool) (a b : string * Lighthouse)
    (tt : string * Tracker) (bd : Bundle) (poses : PoseMap) :
  same_beacon a b -> pnp_epochs c a tt bd poses = pnp_epochs c b tt bd poses.
Proof.
  intros [Hk Hp]. unfold pnp_epochs. revert poses.
  induction bd as [|bt bd IH]; intros poses; simpl; [reflexivity|].
  rewrite IH. f_equal.
  now rewrite (pnp_instant_params c (snd a) (snd b) (snd tt) (snd bt) Hp), Hk.
Qed.

Lemma pnp_stage_params (c : bool) (ls ls' : LighthouseMap) (ts : TrackerMap)
    (bundle : BundleMap) :
  Forall2 same_beacon ls ls' ->
  pnp_stage c ls ts bundle = pnp_stage c ls' ts bundle.
Proof.
  intros Hls. unfold pnp_stage. generalize (@nil (string * StdMap.t Time (StdMap.t string arr6))).
  induction Hls as [|a b ls ls' Hab Hls IH]; intros poses; simpl;
    [reflexivity|].
  rewrite IH. f_equal.
  destruct Hab as [Hk Hp]. rewrite Hk. clear IH Hls.
  revert poses. induction ts as [|tt ts IHts]; intros p; simpl;
    [reflexivity|].
  rewrite IHts. f_equal. apply pnp_epochs_params. now split.
Qed.

Lemma frame_chain_same_beacons (ls : LighthouseMap) (ts : TrackerMap)
    (poses : PoseMap) :
  Forall2 same_beacon (frame_chain ls ts poses) ls.
Proof.
  destruct ls as [|[lm m] slaves]; simpl; constructor.
  - now split.
  - induction slaves as [|lt slaves IH]; simpl; constructor; auto.
    now split.
Qed.

Lemma frame_chain_idem (ls : LighthouseMap) (ts : TrackerMap)
    (poses : PoseMap) :
  frame_chain (frame_chain ls ts poses) ts poses = frame_chain ls ts poses.
Proof.
  destruct ls as [|[lm m] slaves]; simpl; [reflexivity|].
  f_equal. rewrite map_map. apply map_ext. intros [k l]. reflexivity.
Qed.

Lemma master_serial_frame_chain (ls : LighthouseMap) (ts : TrackerMap)
    (poses : PoseMap) :
  master_serial (frame_chain ls ts poses) = master_serial ls.
Proof. destruct ls as [|[lm m] slaves]; reflexivity. Qed.

End PipelineFacts.

(** ** The reference beacon *)

Section Claims.
Context {E : Extern}.

(** What [Solve] leaves at the master, for any configured guess: component 0
    is zero and the five others are as they were. *)
Lemma Solve_master_vTl (s : State) (lm : string) (m : Lighthouse)
    (slaves : LighthouseMap) :
  StdMap.empty (measurements_ s) = false ->
  lighthouses_ s = (lm, m) :: slaves ->
  hd_error (lighthouses_ (snd (Solve s))) =
  Some (lm, set_vTl (Arr6 d0 (c1 (vTl m)) (c2 (vTl m)) (c3 (vTl m))
                       (c4 (vTl m)) (c5 (vTl m))) m).
Proof.
  intros He Hl. rewrite Solve_nonempty by exact He. simpl.
  rewrite Hl. reflexivity.
Qed.

(** [wTv_] after a run is the alignment of the pairs that
    [world_corresp] forms in the frame of the first lighthouse, over the
    corrections as bucketed. *)
Lemma Solve_world_registration (s : State) :
  StdMap.empty (measurements_ s) = false ->
  let pairs :=
    world_corresp (master_serial (lighthouses_ s)) (trackers_ s)
      (solve_poses s) (offset_ s)
      (fst (bundle_corrections (res_ s) (corrections_ s))) in
  wTv_ (snd (Solve s))
  = write_solution (snd (Kabsch (map fst pairs) (map snd pairs))) (wTv_ s).
Proof.
  intros He. rewrite Solve_nonempty by exact He. reflexivity.
Qed.

(** ** Failed alignments *)

(** C2: when a rigid alignment fails, and so when it is given fewer than
    three correspondences, the six zeros of the identity are stored: in
    [vTl] of the slave lighthouse concerned, and in [wTv_] for the world
    registration, which covers a session without corrections. *)
Theorem failed_alignment_stores_identity (s : State) :
  AngleAxis Identity3 = (d0, V3 d1 d0 d0) ->
  StdMap.empty (measurements_ s) = false ->
  let s' := snd (Solve s) in
  let poses := solve_poses s in
  let lm := master_serial (lighthouses_ s) in
  let cor := fst (bundle_corrections (res_ s) (corrections_ s)) in
  let world := world_corresp lm (trackers_ s) poses (offset_ s) cor in
  (forall i lt l,
     nth_error (lighthouses_ s) (S i) = Some (lt, l) ->
     let pairs := frame_corresp lt lm (trackers_ s) poses in
     fst (Kabsch (map fst pairs) (map snd pairs)) = false
     \/ (List.length pairs < 3)%nat ->
     nth_error (lighthouses_ s') (S i) = Some (lt, set_vTl zero6 l)) /\
  (fst (Kabsch (map fst world) (map snd world)) = false
   \/ (List.length world < 3)%nat ->
   wTv_ s' = zero6) /\
  (corrections_ s = [] -> wTv_ s' = zero6).
Proof.
  intros Haa He s' poses lm cor world.
  assert (Hfail : forall pairs : list (Vec3 * Vec3),
            fst (Kabsch (map fst pairs) (map snd pairs)) = false
            \/ (List.length pairs < 3)%nat ->
            forall a,
              write_solution (snd (Kabsch (map fst pairs) (map snd pairs))) a
              = zero6).
  { intros pairs [Hf|Hn] a.
    - rewrite Kabsch_failure by exact Hf. now apply write_solution_identity.
    - rewrite Kabsch_few by (now rewrite length_map).
      now apply write_solution_identity. }
  assert (Hw : fst (Kabsch (map fst world) (map snd world)) = false
               \/ (List.length world < 3)%nat -> wTv_ s' = zero6).
  { intros Hc. subst s'. rewrite Solve_nonempty by exact He. simpl.
    unfold world_wTv. now apply Hfail. }
  split; [|split].
  - intros i lt l Hnth pairs Hc. subst s'.
    rewrite Solve_nonempty by exact He. simpl.
    subst lm pairs. destruct (lighthouses_ s) as [|[lm m] slaves];
      [discriminate|].
    simpl in *. rewrite nth_error_map, Hnth. simpl.
    unfold slave_vTl. now rewrite Hfail.
  - exact Hw.
  - intros Hc. apply Hw. right. subst world cor.
    rewrite Hc. simpl. lia.
Qed.

(** ** Empty buffer *)

(** C3: with an empty measurement buffer [Solve] returns false at once; the
    stop trigger answers with failure; the lighthouse transforms and [wTv_]
    are as before and nothing has been sent. *)
Theorem empty_buffer_aborts (s : State) (res0 : Response) :
  StdMap.empty (measurements_ s) = true ->
  Solve s = (false, set_solves (S (solves_ s)) s) /\
  (recording_ s = true ->
   let r := TriggerCallback res0 s in
   success (fst r) = false /\
   message (fst r) = "Recording stopped. Solution not found."%string /\
   lighthouses_ (snd r) = lighthouses_ s /\
   wTv_ (snd r) = wTv_ s /\
   sent_ (snd r) = sent_ s).
Proof.
  intros He. split; [now apply Solve_empty|].
  intros Hr. unfold TriggerCallback. rewrite Hr. simpl negb. cbv iota.
  rewrite Solve_empty by exact He. simpl. tauto.
Qed.

(** ** The session controller *)

(** C4: a trigger while idle changes [recording_] to true and nothing else,
    so [Solve] is not entered; a trigger while recording enters [Solve]
    once, answers with its result, empties the measurement buffer and
    changes [recording_] to false. *)
Theorem trigger_is_two_state_machine (s : State) (res0 : Response) :
  (recording_ s = false ->
   TriggerCallback res0 s =
   (MkResponse true "Recording started.", set_recording true s)) /\
  (recording_ s = true ->
   let r := TriggerCallback res0 s in
   success (fst r) = fst (Solve s) /\
   snd r = set_recording false (set_measurements [] (snd (Solve s))) /\
   solves_ (snd r) = S (solves_ s) /\
   measurements_ (snd r) = [] /\
   recording_ (snd r) = false).
Proof.
  split; intros Hr; unfold TriggerCallback; rewrite Hr; simpl negb; cbv iota.
  - simpl. now rewrite Hr.
  - pose proof (Solve_counts s) as Hc.
    pose proof (Solve_frame s) as (_ & _ & _ & Hrec & _).
    destruct (Solve s) as [ok s1]. simpl in *.
    rewrite Hrec, Hr. simpl. auto.
Qed.

(** ** What the trigger clears *)

(** C8: the trigger handler leaves the correction buffer as it is, in either
    state, while a stop trigger empties the measurement buffer; so the
    corrections of a session are still there after the stop and the next
    start. *)
Theorem trigger_keeps_corrections (s : State) (res0 res1 : Response) :
  let s1 := snd (TriggerCallback res0 s) in
  let s2 := snd (TriggerCallback res1 s1) in
  corrections_ s1 = corrections_ s /\
  measurements_ s1 = (if recording_ s then [] else measurements_ s) /\
  corrections_ s2 = corrections_ s.
Proof.
  assert (Hkeep : forall r t,
            corrections_ (snd (TriggerCallback r t)) = corrections_ t).
  { intros r t. unfold TriggerCallback.
    pose proof (Solve_frame t) as (_ & _ & Hc & _).
    destruct (recording_ t); simpl; [|reflexivity].
    destruct (Solve t) as [ok t1]. simpl in *. exact Hc. }
  simpl. rewrite !Hkeep. repeat split.
  unfold TriggerCallback. destruct (recording_ s); simpl; [|reflexivity].
  now destruct (Solve s).
Qed.

(** ** Running the pipeline twice *)

(** C9: a second [Solve] on the state the first one left, the buffers being
    the same, returns the same value and leaves the same [vTl] in every
    lighthouse and the same [wTv_]. *)
Theorem solve_twice_same_transforms (s : State) :
  let s1 := snd (Solve s) in
  let s2 := snd (Solve s1) in
  fst (Solve s1) = fst (Solve s) /\
  lighthouses_ s2 = lighthouses_ s1 /\
  wTv_ s2 = wTv_ s1.
Proof.
  destruct (Solve_cases s) as [He|He].
  - rewrite (Solve_empty s He). simpl.
    rewrite Solve_empty by exact He. simpl. auto.
  - rewrite (Solve_nonempty s He). cbn [fst snd].
    set (P := solve_poses s).
    set (cor := fst (bundle_corrections (res_ s) (corrections_ s))).
    set (s1 := set_graph (frame_chain (lighthouses_ s) (trackers_ s) P)
                 (world_wTv s P cor) (set_solves (S (solves_ s)) s)).
    assert (He1 : StdMap.empty (measurements_ s1) = false) by exact He.
    assert (Hp : solve_poses s1 = P).
    { unfold solve_poses, s1. simpl.
      apply pnp_stage_params, frame_chain_same_beacons. }
    rewrite (Solve_nonempty s1 He1). cbn [fst snd]. rewrite Hp.
    change (res_ s1) with (res_ s).
    change (corrections_ s1) with (corrections_ s). fold cor.
    change (trackers_ s1) with (trackers_ s).
    change (lighthouses_ s1)
      with (frame_chain (lighthouses_ s) (trackers_ s) P).
    split; [reflexivity|]. split.
    + subst s1. simpl. apply frame_chain_idem.
    + subst s1. unfold world_wTv. simpl.
      rewrite master_serial_frame_chain. reflexivity.
Qed.

End Claims.

(** C1: on the sample session, whose master lighthouse is configured with
    the guess (1, 2, 3, 0, 0, 0), [Solve] succeeds and leaves (0, 2, 3, 0,
    0, 0) in the [vTl] of the master: only the first of the six components
    has been zeroed. *)
Theorem master_keeps_configured_guess :
  let r := @Solve Stand_in sample_recording in
  let master := option_map (fun kl => vTl (snd kl))
                  (hd_error (lighthouses_ (snd r))) in
  fst r = true /\
  master = Some (Arr6 0 2 3 0 0 0)%float /\
  master <> Some zero6.
Proof.
  assert (Hm : option_map (fun kl => vTl (snd kl))
                 (hd_error (lighthouses_ (snd (@Solve Stand_in sample_recording))))
               = Some (Arr6 0 2 3 0 0 0)%float) by (vm_compute; reflexivity).
  cbv zeta. rewrite Hm. repeat split.
  intros Heq.
  apply (f_equal (fun o => match o with
                           | Some a => PrimFloat.eqb (c1 a) d0
                           | None => true
                           end)) in Heq.
  vm_compute in Heq. discriminate.
Qed.

(** ** Ingestion of light messages *)

Lemma erase_at_end (l1 l2 : list Pulse) (p : Pulse) :
  erase (List.length l1) (l1 ++ p :: l2) = l1 ++ l2.
Proof.
  unfold erase. induction l1 as [|a l1 IH]; simpl; [reflexivity|].
  f_equal. exact IH.
Qed.

(** The backward loop with [erase] visits every pulse once: what is left of
    the prefix under [it] are its pulses that are not rejected. *)
Lemma erase_loop_filter (s : State) (l1 l2 : list Pulse) (d : nat) :
  erase_loop s (List.length l1) (l1 ++ l2) d =
  (filter (kept s) l1 ++ l2,
   (d + List.length (filter (rejected s) l1))%nat).
Proof.
  revert l2 d. induction l1 as [|p l1 IH] using rev_ind; intros l2 d.
  - simpl. now rewrite Nat.add_0_r.
  - rewrite length_app, Nat.add_comm. simpl List.length. simpl erase_loop.
    rewrite <- app_assoc. simpl app.
    rewrite nth_error_app2, Nat.sub_diag by lia. simpl nth_error.
    rewrite !filter_app. simpl filter. unfold kept at 2.
    destruct (rejected s p) eqn:Hr; simpl negb; cbv iota.
    + rewrite erase_at_end, IH. rewrite app_nil_r, length_app. simpl.
      f_equal. lia.
    + rewrite IH. rewrite <- app_assoc, app_nil_r. simpl.
      f_equal. 
Qed.

Lemma surviving_filter (s : State) (v : list Pulse) :
  surviving s v = filter (kept s) v.
Proof.
  unfold surviving.
  rewrite <- (app_nil_r v) at 2. rewrite erase_loop_filter. simpl.
  apply app_nil_r.
Qed.

Lemma light_gate_open (s : State) (msg : Light) (t : Tracker)
    (l : Lighthouse) :
  recording_ s = true ->
  StdMap.find (frame_id msg) (trackers_ s) = Some t ->
  tracker_ready t = true ->
  StdMap.find (lighthouse msg) (lighthouses_ s) = Some l ->
  lighthouse_ready l = true ->
  light_gate s msg = false.
Proof.
  intros Hr Ht Htr Hl Hlr. unfold light_gate, StdMap.mem.
  now rewrite Hr, Ht, Hl, Htr, Hlr.
Qed.

Lemma ltb_irrefl (x : double) : PrimFloat.ltb x x = false.
Proof.
  rewrite ltb_spec. unfold SFltb, SFcompare.
  destruct (Prim2SF x) as [sg|sg| |sg m e]; try reflexivity.
  - now destruct sg.
  - destruct sg; rewrite Z.compare_refl, Pos.compare_cont_refl; reflexivity.
Qed.

(** C5, amended: for a light message that arrives while recording from a
    tracker and a lighthouse that are both configured and ready, with a
    minimum count that is not negative: a pulse is rejected exactly when its
    angle is strictly above [thresh_angle_ / 57.2958] or its duration
    strictly below [thresh_duration_ / 1e6], both computed in [double]. An
    angle equal to the threshold passes. With a threshold of 60 no [float32]
    equals [60.0 / 57.2958]: the [float32] nearest to it lies above it and
    is rejected, the next [float32] below passes, and the [float32] of
    [60.01 / 57.2958] is rejected. The pulses kept are those not rejected,
    in order; the message is stored under the current time with the kept
    pulses when there are at least [thresh_count_] of them, and the state is
    unchanged when there are fewer. *)
Theorem light_message_filtered_and_stored (s : State) (now : Time)
    (msg : Light) (t : Tracker) (l : Lighthouse) :
  recording_ s = true ->
  StdMap.find (frame_id msg) (trackers_ s) = Some t ->
  tracker_ready t = true ->
  StdMap.find (lighthouse msg) (lighthouses_ s) = Some l ->
  lighthouse_ready l = true ->
  (0 <= thresh_count_ s < 2 ^ 31)%Z ->
  let left := surviving s (pulses msg) in
  let s' := LightCallback now msg s in
  (forall p,
     rejected s p = true <->
     PrimFloat.ltb (thresh_angle_ s / 57.2958) (angle p) = true
     \/ PrimFloat.ltb (duration p) (thresh_duration_ s / 1e6) = true) /\
  ((forall p,
      angle p = (thresh_angle_ s / 57.2958)%float ->
      PrimFloat.ltb (duration p) (thresh_duration_ s / 1e6) = false ->
      rejected s p = false) /\
   (thresh_angle_ s = 60.0%float ->
    forall p,
      (angle p = float32_of_double (60.0 / 57.2958)%float ->
       rejected s p = true) /\
      (angle p = (float32_of_double (60.0 / 57.2958)%float - 0x1p-23)%float ->
       PrimFloat.ltb (duration p) (thresh_duration_ s / 1e6) = false ->
       rejected s p = false) /\
      (angle p = float32_of_double (60.01 / 57.2958)%float ->
       rejected s p = true))) /\
  left = filter (fun p => negb (rejected s p)) (pulses msg) /\
  ((thresh_count_ s <= Z.of_nat (List.length left))%Z ->
   StdMap.find now (measurements_ s')
   = Some (MkMeasurement (with_pulses left msg)) /\
   forall t', t' <> now ->
     StdMap.find t' (measurements_ s') = StdMap.find t' (measurements_ s)) /\
  ((Z.of_nat (List.length left) < thresh_count_ s)%Z -> s' = s).
Proof.
  intros Hr Ht Htr Hl Hlr Hc left s'.
  assert (Hg : light_gate s msg = false) by (eapply light_gate_open; eauto).
  assert (Hs : size_t_of_int (thresh_count_ s) = thresh_count_ s).
  { unfold size_t_of_int. apply Z.mod_small. lia. }
  split; [|split; [|split; [|split]]].
  - intros p. unfold rejected. now rewrite orb_true_iff.
  - split.
    + intros p Ha Hd. unfold rejected. now rewrite Ha, ltb_irrefl, Hd.
    + intros H60 p. unfold rejected. rewrite H60. repeat split.
      * intros ->. reflexivity.
      * intros -> ->. reflexivity.
      * intros ->. reflexivity.
  - apply surviving_filter.
  - intros Hn. subst s'. unfold LightCallback. rewrite Hg, Hs.
    simpl pulses. fold left.
    destruct (Z.ltb_spec (Z.of_nat (List.length left)) (thresh_count_ s));
      [lia|].
    simpl measurements_. split.
    + now rewrite find_subscript_same.
    + intros t' Hne. now rewrite find_subscript_other.
  - intros Hn. subst s'. unfold LightCallback. rewrite Hg, Hs.
    simpl pulses. fold left.
    destruct (Z.ltb_spec (Z.of_nat (List.length left)) (thresh_count_ s));
      [reflexivity | lia].
Qed.

Lemma light_message_filtered_and_stored_witness :
  StdMap.find 1%Z
    (measurements_ (LightCallback 1%Z (sample_light "LHB-1" 0) sample_started))
  = Some (MkMeasurement (sample_light "LHB-1" 0)).
Proof.
  assert (Hrange : (0 <= thresh_count_ sample_started < 2 ^ 31)%Z)
    by (vm_compute; split; [discriminate | reflexivity]).
  pose proof (@light_message_filtered_and_stored sample_started 1%Z
                (sample_light "LHB-1" 0) sample_tracker sample_master
                eq_refl eq_refl eq_refl eq_refl eq_refl Hrange)
    as (_ & _ & _ & Hstore & _).
  destruct Hstore as [Hfound _]; [vm_compute; discriminate|].
  exact Hfound.
Defined.

(** C5 as stated fails: a recording node receives a sweep whose four pulses
    all pass the filter, four being the minimum count, and does not store
    it, because the tracker that sent it is not configured. *)
Lemma unknown_tracker_not_stored :
  recording_ sample_started = true /\
  (forall p, In p (pulses stray_light) -> rejected sample_started p = false) /\
  (thresh_count_ sample_started
   <= Z.of_nat (List.length (surviving sample_started (pulses stray_light))))%Z /\
  LightCallback 1%Z stray_light sample_started = sample_started /\
  StdMap.find 1%Z (measurements_ (LightCallback 1%Z stray_light sample_started))
  = None.
Proof.
  split; [reflexivity|]. split.
  - intros p Hin. simpl in Hin.
    repeat (destruct Hin as [<-|Hin]; [reflexivity|]). destruct Hin.
  - split; [vm_compute; discriminate|]. split; vm_compute; reflexivity.
Qed.

(** The count is compared as a [size_t]: under a negative [thresh_count_]
    every message is dropped. *)
Lemma negative_count_drops (s : State) (now : Time) (msg : Light) :
  (- 2 ^ 31 <= thresh_count_ s < 0)%Z ->
  (Z.of_nat (List.length (pulses msg)) < 2 ^ 32)%Z ->
  LightCallback now msg s = s.
Proof.
  intros Hc Hn. unfold LightCallback.
  destruct (light_gate s msg); [reflexivity|].
  simpl pulses. rewrite surviving_filter.
  pose proof (filter_length_le (kept s) (pulses msg)) as Hle.
  assert (Hs : (2 ^ 63 <= size_t_of_int (thresh_count_ s))%Z).
  { unfold size_t_of_int.
    replace (thresh_count_ s) with ((thresh_count_ s + 2 ^ 64) + (-1) * 2 ^ 64)%Z
      by lia.
    rewrite Z.mod_add by lia. rewrite Z.mod_small; lia. }
  destruct (Z.ltb_spec (Z.of_nat (List.length (filter (kept s) (pulses msg))))
              (size_t_of_int (thresh_count_ s))); [reflexivity | lia].
Qed.

(** ** World registration *)

Lemma tracker_sum_from (lm : string) (poses : PoseMap) (t : Time)
    (ts : TrackerMap) (x y z : double) (n : nat) :
  let ps := tracker_poses lm poses t ts in
  fold_left
    (fun acc (tt : string * Tracker) =>
       let '(x, y, z, n) := acc in
       match pose_at poses (fst tt) t lm with
       | Some p => ((x + c0 p)%float, (y + c1 p)%float, (z + c2 p)%float, S n)
       | None => (x, y, z, n)
       end)
    ts (x, y, z, n) =
  (fold_left PrimFloat.add (map c0 ps) x,
   fold_left PrimFloat.add (map c1 ps) y,
   fold_left PrimFloat.add (map c2 ps) z,
   (n + List.length ps)%nat).
Proof.
  revert x y z n. induction ts as [|tt ts IH]; intros x y z n; simpl.
  - now rewrite Nat.add_0_r.
  - destruct (pose_at poses (fst tt) t lm) as [p|]; rewrite IH; simpl.
    + repeat f_equal. lia.
    + reflexivity.
Qed.

Lemma tracker_poses_le (lm : string) (poses : PoseMap) (t : Time)
    (ts : TrackerMap) :
  (List.length (tracker_poses lm poses t ts) <= List.length ts)%nat.
Proof.
  induction ts as [|tt ts IH]; simpl; [lia|].
  destruct (pose_at poses (fst tt) t lm); simpl; lia.
Qed.

(** [n == trackers_.size()] holds exactly when no tracker is without a
    pose. *)
Lemma tracker_count_all (lm : string) (poses : PoseMap) (t : Time)
    (ts : TrackerMap) :
  (List.length (tracker_poses lm poses t ts) =? List.length ts)%nat =
  every_tracker_has_pose lm poses t ts.
Proof.
  induction ts as [|tt ts IH]; simpl; [reflexivity|].
  pose proof (tracker_poses_le lm poses t ts) as Hle.
  destruct (pose_at poses (fst tt) t lm); simpl.
  - exact IH.
  - apply Nat.eqb_neq. lia.
Qed.

Lemma fold_push_filter {A B} (c : A -> bool) (f : A -> B) (l : list A)
    (acc : list B) :
  fold_left (fun acc x => if c x then acc ++ [f x] else acc) l acc =
  acc ++ map f (filter c l).
Proof.
  revert acc. induction l as [|x l IH]; intros acc; simpl.
  - now rewrite app_nil_r.
  - rewrite IH. destruct (c x); simpl; [|reflexivity].
    now rewrite <- app_assoc.
Qed.

Lemma fold_left_pointwise {A B} (f g : A -> B -> A) (l : list B) (a : A) :
  (forall a x, f a x = g a x) -> fold_left f l a = fold_left g l a.
Proof.
  intros Hfg. revert a. induction l as [|x l IH]; intros a; simpl;
    [reflexivity|].
  now rewrite Hfg, IH.
Qed.

(** C7: the world registration forms one pair for each correction bucket at
    which every configured tracker has a pose in the frame of the reference
    lighthouse, and none for any other bucket. The source point of the pair
    is the arithmetic mean of the trackers' positions at that bucket. The
    target point is the translation of the bucket's correction plus the
    configured offset, component by component: for an [offset_] of [ox],
    [oy], [oz] it is the translation with [ox] added to x, [oy] to y and
    [oz] to z. *)
Theorem world_pairs_need_every_tracker (lm : string) (ts : TrackerMap)
    (poses : PoseMap) (ox oy oz : double) (cor : CorMap) :
  world_corresp lm ts poses [ox; oy; oz] cor =
  map
    (fun ct =>
       let ps := tracker_poses lm poses (fst ct) ts in
       (V3 (arithmetic_mean (map c0 ps)) (arithmetic_mean (map c1 ps))
           (arithmetic_mean (map c2 ps)),
        V3 (c0 (snd ct) + ox) (c1 (snd ct) + oy) (c2 (snd ct) + oz))%float)
    (filter (fun ct => every_tracker_has_pose lm poses (fst ct) ts) cor).
Proof.
  unfold world_corresp.
  rewrite <- (app_nil_l (map _ _)), <- fold_push_filter.
  apply fold_left_pointwise; intros corresp ct.
  unfold world_pair, tracker_sum. rewrite tracker_sum_from. simpl Nat.add.
  unfold StdMap.size. rewrite tracker_count_all.
  destruct (every_tracker_has_pose lm poses (fst ct) ts); [|reflexivity].
  unfold arithmetic_mean, offset_at. simpl nth. now rewrite !length_map.
Qed.

(** ** Bucketing *)

Section Bucketing.
Context {E : Extern}.



Lemma fold_obs_append {A B X} (step : A -> B -> A) (obs : A -> list X)
    (g : B -> list X) (l : list B) (a : A) :
  (forall a x, obs (step a x) = obs a ++ g x) ->
  obs (fold_left step l a) = obs a ++ flat_map g l.
Proof.
  intros Hstep. revert a. induction l as [|x l IH]; intros a; simpl.
  - now rewrite app_nil_r.
  - now rewrite IH, Hstep, app_assoc.
Qed.



End Bucketing.

(** ** The pose stage *)

Section PoseStage.
Context {E : Extern}.

Lemma sensor_correspondences_count (c : bool) (lh : Lighthouse)
    (tr : Tracker) (sm : SensorMap) :
  List.length (fst (sensor_correspondences c lh tr sm))
  = List.length (valid_sensors sm).
Proof.
  unfold sensor_correspondences, valid_sensors.
  assert (Hgen : forall l acc,
            List.length (fst (fold_left (sensor_correspondence c lh tr sm) l acc))
            = (List.length (fst acc)
               + List.length (filter (has_both_axes sm) l))%nat).
  { induction l as [|s l IH]; intros acc; simpl; [lia|].
    rewrite IH. unfold sensor_correspondence, has_both_axes, Mean.
    destruct (StdMap.read [] 0%Z (StdMap.read [] (to_uint8 (Z.of_nat s)) sm));
      [simpl; lia|].
    destruct (StdMap.read [] 1%Z (StdMap.read [] (to_uint8 (Z.of_nat s)) sm));
      [simpl; lia|].
    simpl. rewrite length_app. simpl. lia. }
  rewrite Hgen. reflexivity.
Qed.

(** A pose comes out of an instant only with more than six valid sensors
    and a successful solve. *)
Lemma pnp_instant_some (c : bool) (lh : Lighthouse) (tr : Tracker)
    (sm : SensorMap) (p : arr6) :
  pnp_instant c lh tr sm = Some p ->
  (6 < List.length (valid_sensors sm))%nat /\
  exists R T,
    solvePnPRansac (fst (sensor_correspondences c lh tr sm))
      (snd (sensor_correspondences c lh tr sm)) principal_distance
    = Some (R, T)
    /\ p = assign6 T (axis_angle (Rodrigues R)) zero6.
Proof.
  unfold pnp_instant. rewrite <- (sensor_correspondences_count c lh tr sm).
  destruct (sensor_correspondences c lh tr sm) as [obj img]. simpl.
  destruct (Nat.ltb_spec 6 (List.length obj)); [|discriminate].
  destruct (solvePnPRansac obj img principal_distance) as [[R T]|];
    [|discriminate].
  intros [= <-]. split; [assumption|]. now exists R, T.
Qed.

Lemma pnp_instant_few (c : bool) (lh : Lighthouse) (tr : Tracker)
    (sm : SensorMap) :
  (List.length (valid_sensors sm) <= 6)%nat -> pnp_instant c lh tr sm = None.
Proof.
  intros Hle. destruct (pnp_instant c lh tr sm) as [p|] eqn:Hp;
    [|reflexivity].
  apply pnp_instant_some in Hp. lia.
Qed.

Lemma pnp_instant_unsolved (c : bool) (lh : Lighthouse) (tr : Tracker)
    (sm : SensorMap) :
  solvePnPRansac (fst (sensor_correspondences c lh tr sm))
    (snd (sensor_correspondences c lh tr sm)) principal_distance = None ->
  pnp_instant c lh tr sm = None.
Proof.
  intros Hn. destruct (pnp_instant c lh tr sm) as [p|] eqn:Hp;
    [|reflexivity].
  apply pnp_instant_some in Hp. destruct Hp as (_ & R & T & Hs & _).
  congruence.
Qed.

Lemma pose_at_read (poses : PoseMap) (tt : string) (t : Time) (lt : string) :
  pose_at poses tt t lt
  = StdMap.find lt (StdMap.read [] t (StdMap.read [] tt poses)).
Proof.
  unfold pose_at, StdMap.read, StdMap.t.
  do 2 (match goal with
        | |- context [match ?x with Some _ => _ | None => _ end] =>
            destruct x; try reflexivity
        end).
Qed.

Lemma pose_at_store_same (poses : PoseMap) (tt : string) (t : Time)
    (lt : string) (p : arr6) :
  pose_at (store_pose tt t lt p poses) tt t lt = Some p.
Proof.
  rewrite pose_at_read. unfold store_pose.
  now rewrite !read_subscript_same, find_subscript_same.
Qed.

Lemma pose_at_store_other (poses : PoseMap) (tt tt' : string) (t t' : Time)
    (lt lt' : string) (p : arr6) :
  tt' <> tt \/ t' <> t \/ lt' <> lt ->
  pose_at (store_pose tt t lt p poses) tt' t' lt' = pose_at poses tt' t' lt'.
Proof.
  intros Hne. rewrite !pose_at_read. unfold store_pose.
  destruct (key_eq_dec tt' tt) as [->|Htt];
    [|now rewrite read_subscript_other].
  rewrite read_subscript_same.
  destruct (key_eq_dec t' t) as [->|Ht];
    [|now rewrite read_subscript_other].
  rewrite read_subscript_same.
  destruct (key_eq_dec lt' lt) as [->|Hlt];
    [|now rewrite find_subscript_other].
  destruct Hne as [Hne|[Hne|Hne]]; now elim Hne.
Qed.

(** The epochs of one tracker in one lighthouse: only the turn at [t] for
    that tracker and lighthouse reaches the pose under [tt], [t], [lt]. *)
Lemma pnp_epochs_pose (c : bool) (l0 : string * Lighthouse)
    (t0 : string * Tracker) (b : Bundle) (poses : PoseMap) (tt : string)
    (t : Time) (lt : string) :
  StdMap.ordered b ->
  pose_at (pnp_epochs c l0 t0 b poses) tt t lt =
  if String.eqb (fst l0) lt && String.eqb (fst t0) tt then
    match StdMap.find t b with
    | Some sm =>
        or_keep (pnp_instant c (snd l0) (snd t0) sm) (pose_at poses tt t lt)
    | None => pose_at poses tt t lt
    end
  else pose_at poses tt t lt.
Proof.
  intros Hord. unfold pnp_epochs.
  destruct (String.eqb_spec (fst l0) lt) as [Hl|Hl];
    [destruct (String.eqb_spec (fst t0) tt) as [Ht|Ht]|]; simpl.
  - rewrite (fold_ordered_obs (k := t) _ (fun a => pose_at a tt t lt)
               (fun sm x => or_keep (pnp_instant c (snd l0) (snd t0) sm) x));
      auto.
    + intros a sm. simpl.
      destruct (pnp_instant c (snd l0) (snd t0) sm); simpl; auto.
      rewrite Hl, Ht. apply pose_at_store_same.
    + intros a k' sm Hk. simpl.
      destruct (pnp_instant c (snd l0) (snd t0) sm); simpl; auto.
      apply pose_at_store_other. auto.
  - apply (fold_obs_unchanged _ (fun a => pose_at a tt t lt)).
    intros a [k sm]. simpl.
    destruct (pnp_instant c (snd l0) (snd t0) sm); auto.
    apply pose_at_store_other. auto.
  - apply (fold_obs_unchanged _ (fun a => pose_at a tt t lt)).
    intros a [k sm]. simpl.
    destruct (pnp_instant c (snd l0) (snd t0) sm); auto.
    apply pose_at_store_other. auto.
Qed.

Lemma bundle_pulse_ordered (tt lt : string) (t : Time) (a : Z)
    (bundle : BundleMap) (pt : Pulse) :
  bundle_ordered bundle -> bundle_ordered (bundle_pulse tt lt t a bundle pt).
Proof.
  intros Hb tt' lt'. unfold bundle_pulse.
  destruct (key_eq_dec tt' tt) as [->|Htt];
    [|rewrite read_subscript_other by assumption; apply Hb].
  rewrite read_subscript_same.
  destruct (key_eq_dec lt' lt) as [->|Hlt];
    [|rewrite read_subscript_other by assumption; apply Hb].
  rewrite read_subscript_same. apply ordered_subscript, Hb.
Qed.

Lemma bundle_measurements_ordered (res : double) (ms : MeasurementMap) :
  bundle_ordered (bundle_measurements res ms).
Proof.
  unfold bundle_measurements.
  assert (Hnil : bundle_ordered []) by (intros tt lt; exact I).
  revert Hnil. generalize (@nil (string * StdMap.t string Bundle)).
  induction ms as [|mt ms IH]; intros b Hb; simpl; [exact Hb|].
  apply IH. clear IH.
  revert b Hb. induction (pulses (light (snd mt))) as [|pt ps IHp];
    intros b Hb; simpl; [exact Hb|].
  apply IHp, bundle_pulse_ordered, Hb.
Qed.

(** The pose under [tt], [t], [lt] after the whole stage. *)
Lemma pnp_stage_pose (c : bool) (ls : LighthouseMap) (ts : TrackerMap)
    (bundle : BundleMap) (tt : string) (t : Time) (lt : string) :
  StdMap.ordered ls -> StdMap.ordered ts -> bundle_ordered bundle ->
  pose_at (pnp_stage c ls ts bundle) tt t lt =
  match StdMap.find lt ls, StdMap.find tt ts,
        StdMap.find t (StdMap.read [] lt (StdMap.read [] tt bundle)) with
  | Some lh, Some tr, Some sm => pnp_instant c lh tr sm
  | _, _, _ => None
  end.
Proof.
  intros Hls Hts Hb. unfold pnp_stage.
  set (cell := StdMap.read [] lt (StdMap.read [] tt bundle)).
  set (inner := fun (lh : Lighthouse) (tr : Tracker) (x : option arr6) =>
                  match StdMap.find t cell with
                  | Some sm => or_keep (pnp_instant c lh tr sm) x
                  | None => x
                  end).
  rewrite (fold_ordered_obs (k := lt) _ (fun a => pose_at a tt t lt)
             (fun lh x =>
                match StdMap.find tt ts with
                | Some tr => inner lh tr x
                | None => x
                end)); auto.
  - simpl. unfold inner.
    destruct (StdMap.find lt ls); [|reflexivity].
    destruct (StdMap.find tt ts); [|reflexivity].
    destruct (StdMap.find t cell); [|reflexivity].
    unfold or_keep. now destruct (pnp_instant c l t0 s).
  - intros a lh.
    rewrite (fold_ordered_obs (k := tt) _ (fun a => pose_at a tt t lt)
               (fun tr x => inner lh tr x)); auto.
    + intros a' tr. rewrite pnp_epochs_pose by apply Hb. simpl.
      now rewrite !String.eqb_refl.
    + intros a' k' tr Hk. rewrite pnp_epochs_pose by apply Hb. simpl.
      rewrite String.eqb_refl. simpl.
      destruct (String.eqb_spec k' tt); [contradiction | reflexivity].
  - intros a k' lh Hk.
    apply (fold_obs_unchanged _ (fun a => pose_at a tt t lt)).
    intros a' [kt tr]. rewrite pnp_epochs_pose by apply Hb. simpl.
    destruct (String.eqb_spec k' lt); [contradiction | reflexivity].
Qed.

(** C6: in the poses that [Solve] works with, the pose of a tracker at a
    time bucket in a lighthouse is the outcome of that one instant; an
    instant has an outcome only when more than six sensors have samples on
    both axes in the bucket and the RANSAC solver succeeds; with six or
    fewer, or when the solver fails, there is none, and the poses of the
    other instants are what they are without it. *)
Theorem pose_only_from_more_than_six (s : State) (tt : string) (t : Time)
    (lt : string) :
  StdMap.ordered (lighthouses_ s) ->
  StdMap.ordered (trackers_ s) ->
  let bundle := bundle_measurements (res_ s) (measurements_ s) in
  pose_at (solve_poses s) tt t lt
  = match StdMap.find lt (lighthouses_ s), StdMap.find tt (trackers_ s),
          StdMap.find t (StdMap.read [] lt (StdMap.read [] tt bundle)) with
    | Some lh, Some tr, Some sm => pnp_instant (correct_ s) lh tr sm
    | _, _, _ => None
    end
  /\ forall lh tr sm,
       let obj := fst (sensor_correspondences (correct_ s) lh tr sm) in
       let img := snd (sensor_correspondences (correct_ s) lh tr sm) in
       List.length obj = List.length (valid_sensors sm) /\
       (forall p,
          pnp_instant (correct_ s) lh tr sm = Some p ->
          (6 < List.length (valid_sensors sm))%nat /\
          exists R T,
            solvePnPRansac obj img principal_distance = Some (R, T)
            /\ p = assign6 T (axis_angle (Rodrigues R)) zero6) /\
       ((List.length (valid_sensors sm) <= 6)%nat ->
        pnp_instant (correct_ s) lh tr sm = None) /\
       (solvePnPRansac obj img principal_distance = None ->
        pnp_instant (correct_ s) lh tr sm = None).
Proof.
  intros Hls Hts bundle. split.
  - unfold solve_poses. apply pnp_stage_pose; auto.
    apply bundle_measurements_ordered.
  - intros lh tr sm obj img. split; [apply sensor_correspondences_count|].
    split; [intros p; apply pnp_instant_some|].
    split; [apply pnp_instant_few | apply pnp_instant_unsolved].
Qed.

End PoseStage.

(** ** The sample session *)

Lemma sample_recording_has_measurements :
  StdMap.empty (measurements_ sample_recording) = false.
Proof. vm_compute. reflexivity. Qed.

Lemma sample_recording_ordered :
  StdMap.ordered (lighthouses_ sample_recording)
  /\ StdMap.ordered (trackers_ sample_recording).
Proof. vm_compute. repeat split. Qed.

Lemma failed_alignment_stores_identity_witness :
  wTv_ (snd (@Solve Stand_in sample_recording)) = zero6 /\
  nth_error (lighthouses_ (snd (@Solve Stand_in sample_recording))) 1
  = Some ("LHB-2"%string, set_vTl zero6 sample_slave).
Proof.
  pose proof (@failed_alignment_stores_identity Stand_in sample_recording
                eq_refl sample_recording_has_measurements)
    as (Hslave & Hworld & _).
  split.
  - apply Hworld. right. vm_compute. repeat constructor.
  - apply (Hslave 0%nat "LHB-2"%string sample_slave).
    + vm_compute. reflexivity.
    + right. vm_compute. repeat constructor.
Defined.

Lemma sample_started_is_recording_empty :
  StdMap.empty (measurements_ sample_started) = true
  /\ recording_ sample_started = true.
Proof. vm_compute. split; reflexivity. Qed.

Lemma empty_buffer_aborts_witness :
  success (fst (@TriggerCallback Stand_in (MkResponse true "") sample_started))
  = false.
Proof.
  exact (proj1 (proj2 (@empty_buffer_aborts Stand_in sample_started
                         (MkResponse true "")
                         (proj1 sample_started_is_recording_empty))
                 (proj2 sample_started_is_recording_empty))).
Defined.

Lemma sample_recording_is_recording : recording_ sample_recording = true.
Proof. vm_compute. reflexivity. Qed.

Lemma trigger_is_two_state_machine_witness :
  @TriggerCallback Stand_in (MkResponse false "") sample_idle
  = (MkResponse true "Recording started.", set_recording true sample_idle) /\
  solves_ (snd (@TriggerCallback Stand_in (MkResponse false "") sample_recording))
  = S (solves_ sample_recording).
Proof.
  split.
  - exact (proj1 (@trigger_is_two_state_machine Stand_in sample_idle
                    (MkResponse false "")) eq_refl).
  - exact (proj1 (proj2 (proj2
             (proj2 (@trigger_is_two_state_machine Stand_in sample_recording
                       (MkResponse false ""))
                sample_recording_is_recording)))).
Defined.

Lemma pose_only_from_more_than_six_witness :
  pose_at (@solve_poses Stand_in sample_recording) "TRK-A" 0%Z "LHB-2"
  = Some (Arr6 1 0.5 0.25 0 0 0)%float.
Proof.
  rewrite (proj1 (@pose_only_from_more_than_six Stand_in sample_recording
                    "TRK-A" 0%Z "LHB-2" (proj1 sample_recording_ordered)
                    (proj2 sample_recording_ordered))).
  vm_compute. reflexivity.
Defined.

(** * The rest of the node *)

(** ** More on [std::map] *)

Section MoreMapFacts.
Context {K : Type} `{OrdKeyLaws K}.

Lemma size_subscript {V} (d : V) (k : K) (f : V -> V) (m : StdMap.t K V) :
  StdMap.size (StdMap.subscript d k f m)
  = if StdMap.mem k m then StdMap.size m else S (StdMap.size m).
Proof.
  unfold StdMap.size, StdMap.mem.
  induction m as [|[k' v] m IH]; simpl; [reflexivity|].
  destruct (kcmp k k'); simpl; try reflexivity.
  rewrite IH. now destruct (StdMap.find k m).
Qed.

Lemma mem_subscript {V} (d : V) (k k0 : K) (f : V -> V) (m : StdMap.t K V) :
  StdMap.mem k0 m = true -> StdMap.mem k0 (StdMap.subscript d k f m) = true.
Proof.
  unfold StdMap.mem. intros Hm.
  destruct (key_eq_dec k0 k) as [->|Hne].
  - now rewrite find_subscript_same.
  - now rewrite find_subscript_other.
Qed.

Lemma mem_subscript_iff {V} (d : V) (k k0 : K) (f : V -> V)
    (m : StdMap.t K V) :
  StdMap.mem k0 (StdMap.subscript d k f m) = true
  <-> k0 = k \/ StdMap.mem k0 m = true.
Proof.
  unfold StdMap.mem.
  destruct (key_eq_dec k0 k) as [->|Hne].
  - rewrite find_subscript_same. tauto.
  - rewrite find_subscript_other by assumption. tauto.
Qed.

Lemma In_subscript_const {V} (d x : V) (k k0 : K) (v0 : V)
    (m : StdMap.t K V) :
  In (k0, v0) (StdMap.subscript d k (fun _ => x) m) ->
  (k0 = k /\ v0 = x) \/ In (k0, v0) m.
Proof.
  induction m as [|[k' v] m IH]; simpl.
  - intros [[= <- <-]|[]]. now left.
  - destruct (kcmp k k') eqn:Hc; simpl.
    + apply kcmp_eq in Hc; subst k'.
      intros [[= <- <-]|Hin]; [now left | now right; right].
    + intros [[= <- <-]|[Hin|Hin]]; [now left | now right; left
                                     | now right; right].
    + intros [Hin|Hin]; [now right; left|].
      destruct (IH Hin) as [Heq|Hin']; [now left | now right; right].
Qed.

Lemma find_In {V} (k : K) (v : V) (m : StdMap.t K V) :
  StdMap.find k m = Some v -> In (k, v) m.
Proof.
  induction m as [|[k' v'] m IH]; simpl; [discriminate|].
  destruct (kcmp k k') eqn:Hc; try discriminate.
  - apply kcmp_eq in Hc; subst k'. intros [= ->]. now left.
  - intros Hf. right. now apply IH.
Qed.

End MoreMapFacts.

(** ** [LightCallback] *)

Lemma rejected_kept_split (s : State) (v : list Pulse) :
  (List.length (filter (kept s) v) + List.length (filter (rejected s) v)
   = List.length v)%nat.
Proof.
  induction v as [|p v IH]; simpl; [reflexivity|].
  unfold kept at 1. destruct (rejected s p); simpl; lia.
Qed.

(** X1: the backward loop with [erase] leaves the pulses that are not
    rejected, in their order, and counts in [deleted] the rejected ones;
    no pulse is skipped or met twice, so what is left and what is deleted
    add up to what came in. *)
Theorem pulse_filter_conserves (s : State) (v : list Pulse) :
  let r := erase_loop s (List.length v) v 0 in
  fst r = filter (fun p => negb (rejected s p)) v /\
  snd r = List.length (filter (rejected s) v) /\
  (List.length (fst r) + snd r = List.length v)%nat.
Proof.
  pose proof (erase_loop_filter s v [] 0) as Hloop.
  rewrite !app_nil_r in Hloop. cbv zeta. rewrite Hloop. simpl.
  repeat split. apply rejected_kept_split.
Qed.

Lemma light_gate_closed (s : State) (msg : Light) :
  light_gate s msg = false ->
  recording_ s = true /\
  (exists t, StdMap.find (frame_id msg) (trackers_ s) = Some t
             /\ tracker_ready t = true) /\
  (exists l, StdMap.find (lighthouse msg) (lighthouses_ s) = Some l
             /\ lighthouse_ready l = true).
Proof.
  unfold light_gate, StdMap.mem.
  destruct (recording_ s); [|discriminate].
  destruct (StdMap.find (frame_id msg) (trackers_ s)) as [t|];
    [|discriminate].
  destruct (StdMap.find (lighthouse msg) (lighthouses_ s)) as [l|];
    [|discriminate].
  destruct (tracker_ready t) eqn:Htr; [|discriminate].
  destruct (lighthouse_ready l) eqn:Hlr; [|discriminate].
  intros _. repeat split; eauto.
Qed.

(** X2: [LightCallback] either leaves every global as it is, or the node is
    recording, the tracker and the lighthouse of the message are configured
    and ready, enough pulses are left, and the only write is the message
    with the pulses left, under the current time. *)
Theorem light_callback_stores_or_ignores (now : Time) (msg : Light)
    (s : State) :
  let s' := LightCallback now msg s in
  let left := surviving s (pulses msg) in
  s' = s \/
  (recording_ s = true /\
   (exists t, StdMap.find (frame_id msg) (trackers_ s) = Some t
              /\ tracker_ready t = true) /\
   (exists l, StdMap.find (lighthouse msg) (lighthouses_ s) = Some l
              /\ lighthouse_ready l = true) /\
   (size_t_of_int (thresh_count_ s) <= Z.of_nat (List.length left))%Z /\
   StdMap.find now (measurements_ s')
   = Some (MkMeasurement (with_pulses left msg)) /\
   (forall t, t <> now ->
      StdMap.find t (measurements_ s') = StdMap.find t (measurements_ s)) /\
   s' = set_measurements (measurements_ s') s).
Proof.
  cbv zeta. unfold LightCallback.
  destruct (light_gate s msg) eqn:Hg; [now left|].
  simpl pulses.
  destruct (Z.ltb_spec (Z.of_nat (List.length (surviving s (pulses msg))))
              (size_t_of_int (thresh_count_ s))); [now left|].
  right. apply light_gate_closed in Hg. destruct Hg as (Hr & Ht & Hl).
  repeat split; auto; simpl measurements_.
  - now rewrite find_subscript_same.
  - intros t Hne. now rewrite find_subscript_other.
Qed.

(** X4: a light message adds at most one measurement to the buffer and
    removes none; under a time that is already in the buffer it adds
    none, the measurement that was there being replaced. *)
Theorem light_buffer_one_per_stamp (now : Time) (msg : Light) (s : State) :
  let n := StdMap.size (measurements_ s) in
  let n' := StdMap.size (measurements_ (LightCallback now msg s)) in
  (n <= n' <= S n)%nat /\
  (StdMap.mem now (measurements_ s) = true -> n' = n).
Proof.
  cbv zeta. unfold LightCallback.
  destruct (light_gate s msg); [split; [lia | reflexivity]|].
  destruct (Z.of_nat _ <? _)%Z; [split; [lia | reflexivity]|].
  simpl measurements_. rewrite size_subscript.
  destruct (StdMap.mem now (measurements_ s)); split; try lia; discriminate.
Qed.

(** ** What the callbacks write *)

Lemma set_measurements_same (s : State) : set_measurements (measurements_ s) s = s.
Proof. now destruct s. Qed.

Lemma set_corrections_same (s : State) : set_corrections (corrections_ s) s = s.
Proof. now destruct s. Qed.

Lemma same_setup_refl (s : State) : same_setup s s.
Proof. unfold same_setup. tauto. Qed.

Lemma same_setup_trans (a b c : State) :
  same_setup a b -> same_setup b c -> same_setup a c.
Proof.
  unfold same_setup.
  intros (H1 & H2 & H3 & H4 & H5 & H6 & H7 & H8 & H9 & H10)
         (G1 & G2 & G3 & G4 & G5 & G6 & G7 & G8 & G9 & G10).
  repeat split; congruence.
Qed.

Lemma LightCallback_writes (now : Time) (msg : Light) (s : State) :
  LightCallback now msg s
  = set_measurements (measurements_ (LightCallback now msg s)) s.
Proof.
  unfold LightCallback.
  destruct (light_gate s msg); [now rewrite set_measurements_same|].
  destruct (Z.of_nat _ <? _)%Z; [now rewrite set_measurements_same|].
  reflexivity.
Qed.

Lemma LightCallback_idle (now : Time) (msg : Light) (s : State) :
  recording_ s = false -> LightCallback now msg s = s.
Proof.
  intros Hr. unfold LightCallback, light_gate. now rewrite Hr.
Qed.

Lemma CorrectionCallback_fold (now : Time) (msg : list TransformStamped)
    (s : State) :
  CorrectionCallback now msg s
  = if negb (recording_ s) then s else fold_left (store_correction now) msg s.
Proof. reflexivity. Qed.

(** What holds before [CorrectionCallback] and survives every store of a
    transform from [frame_world_] to [frame_body_] holds after it. *)
Lemma CorrectionCallback_preserves (P : State -> Prop) (now : Time) :
  (forall s it,
     recording_ s = true ->
     world_to_body s it -> P s ->
     P (set_corrections
          (StdMap.subscript it now (fun _ => it) (corrections_ s)) s)) ->
  forall msg s, P s -> P (CorrectionCallback now msg s).
Proof.
  intros Hstep msg s HP. rewrite CorrectionCallback_fold.
  destruct (recording_ s) eqn:Hr; simpl; [|exact HP].
  revert s HP Hr. induction msg as [|it msg IH]; intros s HP Hr; simpl;
    [exact HP|].
  apply IH.
  - unfold store_correction.
    destruct (String.eqb_spec (header_frame_id it) (frame_world_ s));
      simpl; [|exact HP].
    destruct (String.eqb_spec (child_frame_id it) (frame_body_ s));
      simpl; [|exact HP].
    apply Hstep; auto. now split.
  - unfold store_correction.
    destruct (_ && _); [exact Hr | exact Hr].
Qed.

Lemma CorrectionCallback_writes (now : Time) (msg : list TransformStamped)
    (s : State) :
  CorrectionCallback now msg s
  = set_corrections (corrections_ (CorrectionCallback now msg s)) s.
Proof.
  apply (CorrectionCallback_preserves
           (fun s' => s' = set_corrections (corrections_ s') s)).
  - intros s' it _ _ Hs'. rewrite Hs' at 2. reflexivity.
  - now rewrite set_corrections_same.
Qed.

Section CallbackFacts.
Context {E : Extern}.

Lemma frame_chain_setup (ls : LighthouseMap) (ts : TrackerMap)
    (poses : PoseMap) :
  map (fun kl => (fst kl, params (snd kl), lighthouse_ready (snd kl)))
    (frame_chain ls ts poses)
  = map (fun kl => (fst kl, params (snd kl), lighthouse_ready (snd kl))) ls.
Proof.
  destruct ls as [|[lm m] slaves]; simpl; [reflexivity|].
  f_equal. rewrite map_map. reflexivity.
Qed.

Lemma Solve_setup (s : State) : same_setup s (snd (Solve s)).
Proof.
  destruct (Solve_cases s) as [He|He];
    [rewrite Solve_empty | rewrite Solve_nonempty]; auto.
  - unfold same_setup. simpl. tauto.
  - unfold same_setup. simpl. rewrite frame_chain_setup. tauto.
Qed.

(** The state a call of [TriggerCallback] leaves. *)
Lemma TriggerCallback_state (res0 : Response) (s : State) :
  snd (TriggerCallback res0 s)
  = if recording_ s
    then set_recording false (set_measurements [] (snd (Solve s)))
    else set_recording true s.
Proof.
  unfold TriggerCallback.
  pose proof (Solve_frame s) as (_ & _ & _ & Hrec & _).
  destruct (recording_ s) eqn:Hr; simpl; [|now rewrite Hr].
  destruct (Solve s) as [ok s1]. simpl in *. now rewrite Hrec.
Qed.

Lemma TriggerCallback_setup (res0 : Response) (s : State) :
  same_setup s (snd (TriggerCallback res0 s)).
Proof.
  rewrite TriggerCallback_state.
  destruct (recording_ s); [|unfold same_setup; simpl; tauto].
  pose proof (Solve_setup s) as Hs. unfold same_setup in *. simpl. exact Hs.
Qed.

(** A property of the globals that every callback keeps is kept by every
    run of the event loop. *)
Lemma spin_preserves (P : State -> Prop) :
  (forall now msg s, P s -> P (LightCallback now msg s)) ->
  (forall now msg s, P s -> P (CorrectionCallback now msg s)) ->
  (forall res0 s, P s -> P (snd (TriggerCallback res0 s))) ->
  forall events n, P (globals n) -> P (globals (spin events n)).
Proof.
  intros HL HC HT. unfold spin.
  induction events as [|e events IH]; intros n HP; simpl; [exact HP|].
  apply IH. destruct e; simpl; auto.
  destruct (timer_pending n); simpl; auto.
  unfold TimerCallback. auto.
Qed.

(** X7: no run of the event loop changes the trackers, the frame names,
    the thresholds, the resolution, the offset or the correction switch, nor
    the serial, the parameters or the readiness of any lighthouse: of what
    is configured, the callbacks of the file write [vTl] only. *)
Theorem spin_keeps_setup (events : list Event) (n : Node) :
  same_setup (globals n) (globals (spin events n)).
Proof.
  apply (spin_preserves (fun s' => same_setup (globals n) s')).
  - intros now msg s Hs. eapply same_setup_trans; [exact Hs|].
    rewrite LightCallback_writes. unfold same_setup. simpl. tauto.
  - intros now msg s Hs. eapply same_setup_trans; [exact Hs|].
    rewrite CorrectionCallback_writes. unfold same_setup. simpl. tauto.
  - intros res0 s Hs. eapply same_setup_trans; [exact Hs|].
    apply TriggerCallback_setup.
  - apply same_setup_refl.
Qed.

End CallbackFacts.

(** ** [CorrectionCallback] *)

(** X6: a [tf] message is ignored as a whole while the node is idle, and so
    is one that holds no transform from [frame_world_] to [frame_body_]:
    no global changes. *)
Theorem correction_ignored (now : Time) (msg : list TransformStamped)
    (s : State) :
  recording_ s = false \/ (forall it, In it msg -> ~ world_to_body s it) ->
  CorrectionCallback now msg s = s.
Proof.
  intros Hc. rewrite CorrectionCallback_fold.
  destruct (recording_ s) eqn:Hr; simpl; [|reflexivity].
  destruct Hc as [Hc|Hc]; [discriminate|].
  clear Hr. induction msg as [|it msg IH]; simpl; [reflexivity|].
  assert (Hit : store_correction now s it = s).
  { unfold store_correction.
    destruct (String.eqb_spec (header_frame_id it) (frame_world_ s));
      simpl; [|reflexivity].
    destruct (String.eqb_spec (child_frame_id it) (frame_body_ s));
      simpl; [|reflexivity].
    exfalso. apply (Hc it); [now left | now split]. }
  rewrite Hit. apply IH. intros it' Hin. apply Hc. now right.
Qed.

Lemma correction_ignored_witness :
  CorrectionCallback 9%Z
    [MkTransformStamped "world" "tool" (V3 1 1 2)%float (Quat 1 0 0 0)%float]
    sample_recording
  = sample_recording.
Proof.
  apply correction_ignored. right.
  intros it [<-|[]] [_ Hchild]. vm_compute in Hchild. discriminate.
Defined.

(** ** The event loop *)

Section SpinFacts.
Context {E : Extern}.

(** X8: in every run of the event loop, an idle node with an empty
    measurement buffer stays so until it is triggered: whenever the node is
    idle, the measurement buffer is empty. *)
Theorem idle_node_has_empty_buffer (events : list Event) (n : Node) :
  (recording_ (globals n) = false -> measurements_ (globals n) = []) ->
  recording_ (globals (spin events n)) = false ->
  measurements_ (globals (spin events n)) = [].
Proof.
  apply (spin_preserves
           (fun s => recording_ s = false -> measurements_ s = [])).
  - intros now msg s Hs Hr.
    rewrite LightCallback_writes in Hr. simpl in Hr.
    rewrite (LightCallback_idle now msg s Hr). auto.
  - intros now msg s Hs. rewrite CorrectionCallback_writes. simpl. exact Hs.
  - intros res0 s Hs. rewrite TriggerCallback_state.
    destruct (recording_ s); simpl; [reflexivity | discriminate].
Qed.

(** The two buffers stay ordered by time in every run of the event loop. *)
Lemma buffers_stay_ordered (events : list Event) (n : Node) :
  StdMap.ordered (measurements_ (globals n))
  /\ StdMap.ordered (corrections_ (globals n)) ->
  StdMap.ordered (measurements_ (globals (spin events n)))
  /\ StdMap.ordered (corrections_ (globals (spin events n))).
Proof.
  apply (spin_preserves
           (fun s => StdMap.ordered (measurements_ s)
                     /\ StdMap.ordered (corrections_ s))).
  - intros now msg s [Hm Hc]. unfold LightCallback.
    destruct (light_gate s msg); [now split|].
    destruct (Z.of_nat _ <? _)%Z; [now split|].
    simpl. split; [now apply ordered_subscript | exact Hc].
  - intros now msg s Hs. revert msg s Hs.
    apply (CorrectionCallback_preserves
             (fun s => StdMap.ordered (measurements_ s)
                       /\ StdMap.ordered (corrections_ s))).
    intros s it _ _ [Hm Hc]. simpl.
    split; [exact Hm | now apply ordered_subscript].
  - intros res0 s [Hm Hc]. rewrite TriggerCallback_state.
    pose proof (Solve_frame s) as (_ & _ & Hcor & _).
    destruct (recording_ s); simpl; [|now split].
    rewrite Hcor. now split.
Qed.

Lemma surviving_not_rejected (s : State) (v : list Pulse) (p : Pulse) :
  In p (surviving s v) -> rejected s p = false.
Proof.
  rewrite surviving_filter. intros Hin. apply filter_In in Hin.
  destruct Hin as [_ Hk]. unfold kept in Hk. now destruct (rejected s p).
Qed.

Lemma admissible_set_measurements (m : MeasurementMap) (s : State)
    (l : Light) :
  admissible (set_measurements m s) l <-> admissible s l.
Proof. unfold admissible, rejected. simpl. tauto. Qed.

(** X9: every measurement in the buffer has passed the filter: none of its
    pulses is over the angle threshold or under the duration threshold, and
    it has at least [thresh_count_] of them. This holds after every run of
    the event loop if it held before. *)
Theorem buffered_measurements_admissible (events : list Event) (n : Node) :
  (forall t m, In (t, m) (measurements_ (globals n)) ->
               admissible (globals n) (light m)) ->
  forall t m, In (t, m) (measurements_ (globals (spin events n))) ->
              admissible (globals (spin events n)) (light m).
Proof.
  apply (spin_preserves
           (fun s => forall t m, In (t, m) (measurements_ s) ->
                                 admissible s (light m))).
  - intros now msg s Hs t m. unfold LightCallback.
    destruct (light_gate s msg); [apply Hs|].
    destruct (Z.ltb_spec
                (Z.of_nat (List.length
                             (pulses (with_pulses (surviving s (pulses msg))
                                        msg))))
                (size_t_of_int (thresh_count_ s))) as [Hlt|Hge];
      [apply Hs|].
    simpl measurements_. intros Hin. apply admissible_set_measurements.
    apply In_subscript_const in Hin. destruct Hin as [[_ ->]|Hin].
    + split; simpl.
      * intros p. apply surviving_not_rejected.
      * exact Hge.
    + exact (Hs t m Hin).
  - intros now msg s Hs. rewrite CorrectionCallback_writes. exact Hs.
  - intros res0 s Hs t m. rewrite TriggerCallback_state.
    destruct (recording_ s); simpl; [intros []|]. apply Hs.
Qed.

(** X10: the correction buffer only ever holds transforms from
    [frame_world_] to [frame_body_]. *)
Theorem corrections_are_world_to_body (events : list Event) (n : Node) :
  (forall t c, In (t, c) (corrections_ (globals n)) ->
               world_to_body (globals n) c) ->
  forall t c, In (t, c) (corrections_ (globals (spin events n))) ->
              world_to_body (globals (spin events n)) c.
Proof.
  apply (spin_preserves
           (fun s => forall t c, In (t, c) (corrections_ s) ->
                                 world_to_body s c)).
  - intros now msg s Hs. rewrite LightCallback_writes. exact Hs.
  - intros now msg s Hs. revert msg s Hs.
    apply (CorrectionCallback_preserves
             (fun s => forall t c, In (t, c) (corrections_ s) ->
                                   world_to_body s c)).
    intros s it _ Hit Hs t c Hin. simpl in Hin.
    apply In_subscript_const in Hin. destruct Hin as [[_ ->]|Hin].
    + exact Hit.
    + exact (Hs t c Hin).
  - intros res0 s Hs t c. rewrite TriggerCallback_state.
    pose proof (Solve_frame s) as (_ & _ & Hcor & _).
    pose proof (Solve_setup s) as (_ & _ & Hw & Hb & _).
    destruct (recording_ s); simpl; [|apply Hs].
    rewrite Hcor. unfold world_to_body. simpl. rewrite Hw, Hb. apply Hs.
Qed.

(** X11: a time that has a correction in the buffer has one after every
    run of the event loop: corrections are never removed, by a trigger or
    otherwise. *)
Theorem corrections_never_removed (events : list Event) (n : Node)
    (t : Time) :
  StdMap.mem t (corrections_ (globals n)) = true ->
  StdMap.mem t (corrections_ (globals (spin events n))) = true.
Proof.
  apply (spin_preserves (fun s => StdMap.mem t (corrections_ s) = true)).
  - intros now msg s Hs. rewrite LightCallback_writes. exact Hs.
  - intros now msg s Hs. revert msg s Hs.
    apply (CorrectionCallback_preserves
             (fun s => StdMap.mem t (corrections_ s) = true)).
    intros s it _ _ Hs. simpl. now apply mem_subscript.
  - intros res0 s Hs. rewrite TriggerCallback_state.
    pose proof (Solve_frame s) as (_ & _ & Hcor & _).
    destruct (recording_ s); simpl; [|exact Hs]. now rewrite Hcor.
Qed.

Lemma LightCallback_session (now : Time) (msg : Light) (s : State) :
  recording_ (LightCallback now msg s) = recording_ s
  /\ solves_ (LightCallback now msg s) = solves_ s.
Proof. rewrite LightCallback_writes. now split. Qed.

Lemma CorrectionCallback_session (now : Time) (msg : list TransformStamped)
    (s : State) :
  recording_ (CorrectionCallback now msg s) = recording_ s
  /\ solves_ (CorrectionCallback now msg s) = solves_ s.
Proof. rewrite CorrectionCallback_writes. now split. Qed.

Lemma TriggerCallback_counts (res0 : Response) (s : State) :
  let s' := snd (TriggerCallback res0 s) in
  recording_ s' = negb (recording_ s) /\
  (2 * solves_ s' + recording_bit s'
   = 2 * solves_ s + recording_bit s + 1)%nat.
Proof.
  cbv zeta. rewrite TriggerCallback_state. unfold recording_bit.
  pose proof (Solve_counts s) as Hc.
  destruct (recording_ s); simpl; split; try reflexivity; lia.
Qed.

(** X12: entries into [Solve] and starts of recording alternate. Over a run
    of the event loop, twice the number of entries into [Solve] plus one for
    a recording node grows by exactly the number of calls of
    [TriggerCallback], those made by the timer included; and [recording_]
    has changed when that number is odd. *)
Theorem triggers_alternate (events : list Event) (n : Node) :
  let k := triggers events (timer_pending n) in
  let s := globals n in
  let s' := globals (spin events n) in
  (2 * solves_ s' + recording_bit s'
   = 2 * solves_ s + recording_bit s + k)%nat /\
  recording_ s' = xorb (recording_ s) (Nat.odd k).
Proof.
  cbv zeta. unfold spin. revert n.
  induction events as [|e events IH]; intros n; simpl.
  - split; [lia | now rewrite xorb_false_r].
  - destruct e; simpl.
    + specialize (IH (MkNode (LightCallback now msg (globals n)) true)).
      destruct (LightCallback_session now msg (globals n)) as [Hr Hc].
      simpl in IH. unfold recording_bit in *. rewrite Hr, Hc in IH.
      exact IH.
    + specialize (IH (MkNode (CorrectionCallback now msg (globals n))
                        (timer_pending n))).
      destruct (CorrectionCallback_session now msg (globals n)) as [Hr Hc].
      simpl in IH. unfold recording_bit in *. rewrite Hr, Hc in IH.
      exact IH.
    + specialize (IH (MkNode (snd (TriggerCallback (MkResponse false "")
                                     (globals n))) (timer_pending n))).
      simpl in IH. destruct IH as [IHc IHr].
      destruct (TriggerCallback_counts (MkResponse false "") (globals n))
        as [Hr Hc].
      split; [lia|].
      rewrite IHr, Hr, Nat.odd_succ, <- Nat.negb_odd.
      now destruct (recording_ (globals n)), (Nat.odd _).
    + destruct (timer_pending n) eqn:Hp.
      * specialize (IH (MkNode (TimerCallback (globals n)) false)).
        simpl in IH. destruct IH as [IHc IHr]. unfold TimerCallback in *.
        destruct (TriggerCallback_counts (MkResponse false "") (globals n))
          as [Hr Hc].
        split; [lia|].
        rewrite IHr, Hr, Nat.odd_succ, <- Nat.negb_odd.
        now destruct (recording_ (globals n)), (Nat.odd _).
      * specialize (IH n). now rewrite Hp in IH.
Qed.

(** X13: the timer that ends a session also starts one. On an idle node a
    light message changes no global but restarts the timer, and when the
    timer then fires the node starts recording, without entering
    [Solve]. *)
Theorem timer_starts_idle_node (now : Time) (msg : Light) (n : Node) :
  recording_ (globals n) = false ->
  spin [EvLight now msg; EvTimer] n
  = MkNode (set_recording true (globals n)) false.
Proof.
  intros Hr. unfold spin. simpl.
  rewrite (LightCallback_idle now msg (globals n) Hr).
  unfold TimerCallback. now rewrite TriggerCallback_state, Hr.
Qed.

End SpinFacts.

(** ** Sessions *)

Section SessionFacts.
Context {E : Extern}.

(** X14: a session in which no measurement was buffered ends in failure.
    From an idle node with an empty measurement buffer, a start trigger,
    any number of [tf] messages and a stop trigger leave the lighthouse
    transforms and [wTv_] as they were, send nothing, and answer with
    failure. *)
Theorem session_without_measurements_fails (res0 res1 : Response)
    (s : State) (tfs : list (Time * list TransformStamped)) :
  recording_ s = false ->
  measurements_ s = [] ->
  let started := snd (TriggerCallback res0 s) in
  let fed :=
    fold_left (fun s m => CorrectionCallback (fst m) (snd m) s) tfs started in
  let r := TriggerCallback res1 fed in
  fst r = MkResponse false "Recording stopped. Solution not found." /\
  lighthouses_ (snd r) = lighthouses_ s /\
  wTv_ (snd r) = wTv_ s /\
  sent_ (snd r) = sent_ s /\
  recording_ (snd r) = false.
Proof.
  intros Hr Hm. cbv zeta. rewrite TriggerCallback_state, Hr.
  assert (Hfed : exists c,
            fold_left (fun s m => CorrectionCallback (fst m) (snd m) s) tfs
              (set_recording true s)
            = set_corrections c (set_recording true s)).
  { generalize (set_recording true s) as s0.
    induction tfs as [|m tfs IH]; intros s0; simpl.
    - exists (corrections_ s0). now rewrite set_corrections_same.
    - rewrite (CorrectionCallback_writes (fst m) (snd m) s0).
      destruct (IH (set_corrections
                      (corrections_ (CorrectionCallback (fst m) (snd m) s0))
                      s0)) as [c Hc].
      exists c. rewrite Hc. reflexivity. }
  destruct Hfed as [c ->].
  unfold TriggerCallback. simpl recording_. simpl negb. cbv iota.
  rewrite Solve_empty by (simpl; now rewrite Hm). simpl. tauto.
Qed.

(** X15: the answer to a stop trigger says whether anything was buffered,
    not whether anything was solved: [success] is true exactly when the
    measurement buffer is not empty. Exactly then the transform graph is
    sent and written to the calibration file, once each, and what is sent is
    what the globals hold afterwards. *)
Theorem stop_trigger_reports_buffered (res0 : Response) (s : State) :
  recording_ s = true ->
  let r := TriggerCallback res0 s in
  success (fst r) = negb (StdMap.empty (measurements_ s)) /\
  sent_ (snd r)
  = sent_ s ++
    (if StdMap.empty (measurements_ s) then []
     else [SendTransforms (wTv_ (snd r)) (lighthouses_ (snd r))
             (trackers_ (snd r));
           WriteConfig (wTv_ (snd r)) (lighthouses_ (snd r))
             (trackers_ (snd r))]).
Proof.
  intros Hr. cbv zeta. unfold TriggerCallback. rewrite Hr. simpl negb.
  cbv iota.
  destruct (Solve_cases s) as [He|He]; rewrite He.
  - rewrite Solve_empty by exact He. simpl. now rewrite app_nil_r.
  - rewrite Solve_nonempty by exact He. simpl. auto.
Qed.

Lemma ordered_same_keys {K V W} `{OrdKey K} (m : StdMap.t K V)
    (m' : StdMap.t K W) :
  map fst m = map fst m' -> StdMap.ordered m -> StdMap.ordered m'.
Proof.
  assert (Habove : forall k (a : StdMap.t K V) (b : StdMap.t K W),
            map fst a = map fst b -> StdMap.above k a -> StdMap.above k b).
  { intros k a. induction a as [|[ka va] a IH]; intros [|[kb vb] b];
      simpl; try discriminate; auto.
    intros [= -> Hab] [Hk Ha]. split; eauto. }
  revert m'. induction m as [|[k v] m IH]; intros [|[k' v'] m']; simpl;
    try discriminate; auto.
  intros [= -> Hm] [Ha Ho]. split; eauto.
Qed.

(** The lighthouse and tracker maps stay ordered by serial in every run of
    the event loop. *)
Lemma maps_stay_ordered (events : list Event) (n : Node) :
  StdMap.ordered (lighthouses_ (globals n))
  /\ StdMap.ordered (trackers_ (globals n)) ->
  StdMap.ordered (lighthouses_ (globals (spin events n)))
  /\ StdMap.ordered (trackers_ (globals (spin events n))).
Proof.
  intros [Hl Ht].
  assert (Hkeys : forall a b : State,
            same_setup a b ->
            map fst (lighthouses_ b) = map fst (lighthouses_ a)
            /\ trackers_ b = trackers_ a).
  { intros a b (Htr & Hls & _). split; [|exact Htr].
    apply (f_equal (map (fun x : string * list double * bool =>
                           fst (fst x)))) in Hls.
    rewrite !map_map in Hls. exact Hls. }
  assert (Hrun : map fst (lighthouses_ (globals (spin events n)))
                 = map fst (lighthouses_ (globals n))
                 /\ trackers_ (globals (spin events n))
                    = trackers_ (globals n)).
  { apply (spin_preserves
             (fun s' => map fst (lighthouses_ s')
                        = map fst (lighthouses_ (globals n))
                        /\ trackers_ s' = trackers_ (globals n))).
    - intros now msg s Hs. rewrite LightCallback_writes. exact Hs.
    - intros now msg s Hs. rewrite CorrectionCallback_writes. exact Hs.
    - intros res0 s [Hs1 Hs2].
      destruct (Hkeys _ _ (TriggerCallback_setup res0 s)) as [H1 H2].
      split; congruence.
    - now split. }
  destruct Hrun as [Hk Htr]. split.
  - apply (ordered_same_keys (lighthouses_ (globals n))); [|exact Hl].
    now symmetry.
  - now rewrite Htr.
Qed.

End SessionFacts.

(** ** More on [Solve] *)

Section SolveFacts.
Context {E : Extern}.

(** The frame chain as a list: tracker by tracker, then time by time. *)
Lemma frame_corresp_flat (lt lm : string) (ts : TrackerMap)
    (poses : PoseMap) :
  frame_corresp lt lm ts poses
  = flat_map
      (fun tt => flat_map (frame_pair lt lm) (StdMap.read [] (fst tt) poses))
      ts.
Proof.
  unfold frame_corresp.
  rewrite (fold_obs_append _ (fun c => c)
             (fun tt : string * Tracker =>
                flat_map (frame_pair lt lm) (StdMap.read [] (fst tt) poses))).
  - reflexivity.
  - intros corresp tt.
    rewrite (fold_obs_append _ (fun c => c) (frame_pair lt lm)).
    + reflexivity.
    + intros c pt. unfold frame_pair.
      destruct (StdMap.find lt (snd pt)); [|now rewrite app_nil_r].
      destruct (StdMap.find lm (snd pt)); [reflexivity|now rewrite app_nil_r].
Qed.

Lemma above_In {K V} `{OrdKeyLaws K} (k0 k : K) (v : V) (m : StdMap.t K V) :
  StdMap.above k0 m -> In (k, v) m -> kcmp k0 k = Lt.
Proof.
  induction m as [|[k' v'] m IH]; simpl; [easy|].
  intros [Hk Hm] [[= -> _]|Hin]; auto.
Qed.

(** In an ordered map an entry is found under its key. *)
Lemma In_find_ordered {K V} `{OrdKeyLaws K} (k : K) (v : V)
    (m : StdMap.t K V) :
  StdMap.ordered m -> In (k, v) m -> StdMap.find k m = Some v.
Proof.
  induction m as [|[k' v'] m IH]; simpl; [easy|].
  intros [Ha Ho] [[= -> ->]|Hin].
  - now rewrite kcmp_refl.
  - pose proof (above_In _ _ _ _ Ha Hin) as Hlt.
    destruct (kcmp k k') eqn:Hc.
    + apply kcmp_eq in Hc; subst k'. rewrite kcmp_refl in Hlt. discriminate.
    + pose proof (kcmp_lt_trans _ _ _ Hlt Hc) as Hbad.
      rewrite kcmp_refl in Hbad. discriminate.
    + now apply IH.
Qed.

Lemma store_pose_ordered (tt : string) (t : Time) (lt : string) (p : arr6)
    (poses : PoseMap) :
  poses_ordered poses -> poses_ordered (store_pose tt t lt p poses).
Proof.
  intros Hp tt'. unfold store_pose.
  destruct (key_eq_dec tt' tt) as [->|Hne];
    [|rewrite read_subscript_other by assumption; apply Hp].
  rewrite read_subscript_same. apply ordered_subscript, Hp.
Qed.

Lemma fold_left_invariant {A B} (P : A -> Prop) (step : A -> B -> A)
    (l : list B) :
  (forall a x, P a -> P (step a x)) -> forall a, P a -> P (fold_left step l a).
Proof.
  intros Hstep. induction l as [|x l IH]; intros a Ha; simpl; auto.
Qed.

Lemma pnp_stage_ordered (c : bool) (ls : LighthouseMap) (ts : TrackerMap)
    (bundle : BundleMap) :
  poses_ordered (pnp_stage c ls ts bundle).
Proof.
  unfold pnp_stage.
  apply (fold_left_invariant poses_ordered); [|intros tt; exact I].
  intros poses lh Hp.
  apply (fold_left_invariant poses_ordered); [|exact Hp].
  intros poses' tr Hp'. unfold pnp_epochs.
  apply (fold_left_invariant poses_ordered); [|exact Hp'].
  intros poses'' bt Hp''.
  destruct (pnp_instant c (snd lh) (snd tr) (snd bt));
    [now apply store_pose_ordered | exact Hp''].
Qed.

Lemma frame_pair_pose (poses : PoseMap) (tt : string) (lt lm : string)
    (a b : Vec3) :
  StdMap.ordered (StdMap.read [] tt poses) ->
  (exists pt, In pt (StdMap.read [] tt poses)
              /\ In (a, b) (frame_pair lt lm pt))
  <-> exists t pl pm,
        pose_at poses tt t lt = Some pl /\
        pose_at poses tt t lm = Some pm /\
        a = V3 (c0 pl) (c1 pl) (c2 pl) /\
        b = V3 (c0 pm) (c1 pm) (c2 pm).
Proof.
  intros Hord. split.
  - intros ([t by_lh] & Hin & Hpair).
    pose proof (In_find_ordered _ _ _ Hord Hin) as Hfind.
    unfold frame_pair in Hpair. simpl in Hpair.
    destruct (StdMap.find lt by_lh) as [pl|] eqn:Hl; [|destruct Hpair].
    destruct (StdMap.find lm by_lh) as [pm|] eqn:Hm; [|destruct Hpair].
    destruct Hpair as [[= <- <-]|[]].
    exists t, pl, pm. rewrite !pose_at_read.
    unfold StdMap.read at 1 3. unfold StdMap.t in *. rewrite Hfind.
    repeat split; assumption.
  - intros (t & pl & pm & Hl & Hm & -> & ->).
    rewrite pose_at_read in Hl, Hm.
    unfold StdMap.read at 1 in Hl. unfold StdMap.read at 1 in Hm.
    revert Hl Hm.
    match goal with
    | |- context [match ?x with Some _ => _ | None => _ end] =>
        destruct x as [by_lh|] eqn:Hfind
    end; [|discriminate].
    intros Hl Hm.
    exists (t, by_lh). split; [now apply find_In|].
    unfold frame_pair. simpl. rewrite Hl, Hm. now left.
Qed.

(** X16: in the frame chain of [Solve], a pair of points belongs to the
    correspondences of a slave exactly when some configured tracker has, at
    one and the same time, a pose in the slave and a pose in the master,
    and the pair is made of the three translation components of the pose in
    the slave, then those of the pose in the master. *)
Theorem frame_pairs_need_both_poses (s : State) (lt lm : string)
    (a b : Vec3) :
  In (a, b) (frame_corresp lt lm (trackers_ s) (solve_poses s))
  <-> exists tt tr t pl pm,
        In (tt, tr) (trackers_ s) /\
        pose_at (solve_poses s) tt t lt = Some pl /\
        pose_at (solve_poses s) tt t lm = Some pm /\
        a = V3 (c0 pl) (c1 pl) (c2 pl) /\
        b = V3 (c0 pm) (c1 pm) (c2 pm).
Proof.
  assert (Hord : poses_ordered (solve_poses s))
    by (unfold solve_poses; apply pnp_stage_ordered).
  rewrite frame_corresp_flat, in_flat_map. split.
  - intros ([tt tr] & Hin & Hpairs). apply in_flat_map in Hpairs.
    apply (frame_pair_pose (solve_poses s) tt lt lm a b (Hord tt)) in Hpairs.
    destruct Hpairs as (t & pl & pm & H).
    exists tt, tr, t, pl, pm. now split.
  - intros (tt & tr & t & pl & pm & Hin & H).
    exists (tt, tr). split; [exact Hin|]. apply in_flat_map.
    apply (frame_pair_pose (solve_poses s) tt lt lm a b (Hord tt)).
    now exists t, pl, pm.
Qed.

Lemma slaves_same_solution (lm : string) (ts : TrackerMap) (poses : PoseMap)
    (a b : LighthouseMap) :
  Forall2 same_beacon a b ->
  map (fun kl => (fst kl, vTl (snd kl)))
    (map (fun lt =>
            (fst lt,
             set_vTl (slave_vTl (fst lt) lm ts poses (vTl (snd lt)))
               (snd lt))) a)
  = map (fun kl => (fst kl, vTl (snd kl)))
      (map (fun lt =>
              (fst lt,
               set_vTl (slave_vTl (fst lt) lm ts poses (vTl (snd lt)))
                 (snd lt))) b).
Proof.
  induction 1 as [|x y a b [Hk _] _ IH]; simpl; [reflexivity|].
  rewrite IH, Hk. reflexivity.
Qed.

(** X17: the transform guesses configured for the slave lighthouses and
    the [wTv_] of an earlier run have no part in the result. Two nodes
    with the same buffers, trackers and switches, and the same lighthouse
    serials and parameters, end a run of [Solve] with the same [vTl] in
    every slave and the same [wTv_]. *)
Theorem solve_ignores_slave_guesses (s s' : State) :
  Forall2 same_beacon (lighthouses_ s) (lighthouses_ s') ->
  trackers_ s' = trackers_ s ->
  measurements_ s' = measurements_ s ->
  corrections_ s' = corrections_ s ->
  correct_ s' = correct_ s ->
  res_ s' = res_ s ->
  offset_ s' = offset_ s ->
  StdMap.empty (measurements_ s) = false ->
  map (fun kl => (fst kl, vTl (snd kl))) (tl (lighthouses_ (snd (Solve s'))))
  = map (fun kl => (fst kl, vTl (snd kl))) (tl (lighthouses_ (snd (Solve s))))
  /\ wTv_ (snd (Solve s')) = wTv_ (snd (Solve s)).
Proof.
  intros Hls Hts Hms Hcs Hc Hres Hoff He.
  assert (He' : StdMap.empty (measurements_ s') = false) by now rewrite Hms.
  assert (Hp : solve_poses s' = solve_poses s).
  { unfold solve_poses. rewrite Hts, Hms, Hc, Hres.
    symmetry. now apply pnp_stage_params. }
  rewrite (Solve_nonempty s He), (Solve_nonempty s' He'). simpl.
  rewrite Hp, Hts, Hcs, Hres. split.
  - destruct Hls as [|[lm m] [lm' m'] a b [Hk _] Hab]; simpl;
      [reflexivity|].
    simpl in Hk. subst lm'. symmetry. now apply slaves_same_solution.
  - unfold world_wTv. rewrite Hts, Hoff.
    replace (master_serial (lighthouses_ s'))
      with (master_serial (lighthouses_ s)); [reflexivity|].
    destruct Hls as [|[lm m] [lm' m'] a b [Hk _] Hab]; simpl; auto.
Qed.

Lemma mem_subscript_time {V} (d : V) (t t' : Time) (f : V -> V)
    (m : StdMap.t Time V) :
  StdMap.mem t (StdMap.subscript d t' f m)
  = Z.eqb t' t || StdMap.mem t m.
Proof.
  unfold StdMap.mem. destruct (Z.eqb_spec t' t) as [->|Hne]; simpl.
  - now rewrite find_subscript_same.
  - rewrite find_subscript_other by congruence. reflexivity.
Qed.

Lemma bundle_pulse_bucket (tt lt : string) (t : Time) (tt' lt' : string)
    (t' : Time) (a : Z) (b : BundleMap) (pt : Pulse) :
  has_bucket tt lt t (bundle_pulse tt' lt' t' a b pt)
  = has_bucket tt lt t b
    || (String.eqb tt' tt && String.eqb lt' lt && Z.eqb t' t).
Proof.
  unfold has_bucket, bundle_pulse.
  destruct (String.eqb_spec tt' tt) as [->|Ht]; simpl;
    [rewrite read_subscript_same
    |rewrite read_subscript_other by congruence; now rewrite orb_false_r].
  destruct (String.eqb_spec lt' lt) as [->|Hl]; simpl;
    [rewrite read_subscript_same
    |rewrite read_subscript_other by congruence; now rewrite orb_false_r].
  rewrite mem_subscript_time. apply orb_comm.
Qed.

Lemma fold_obs_or {A B} (step : A -> B -> A) (obs : A -> bool)
    (g : B -> bool) (l : list B) (a : A) :
  (forall a x, obs (step a x) = obs a || g x) ->
  obs (fold_left step l a) = obs a || existsb g l.
Proof.
  intros Hstep. revert a. induction l as [|x l IH]; intros a; simpl.
  - now rewrite orb_false_r.
  - now rewrite IH, Hstep, orb_assoc.
Qed.

(** The bundle has a bucket for a tracker, a lighthouse and a time exactly
    when a measurement with at least one pulse falls into it. *)
Lemma bundle_measurements_bucket (res : double) (ms : MeasurementMap)
    (tt lt : string) (t : Time) :
  has_bucket tt lt t (bundle_measurements res ms)
  = existsb (feeds_bucket res tt lt t) ms.
Proof.
  unfold bundle_measurements.
  rewrite (fold_obs_or _ (has_bucket tt lt t) (feeds_bucket res tt lt t)).
  - reflexivity.
  - intros b mt.
    rewrite (fold_obs_or _ (has_bucket tt lt t)
               (fun _ : Pulse =>
                  String.eqb (frame_id (light (snd mt))) tt
                  && String.eqb (lighthouse (light (snd mt))) lt
                  && Z.eqb (quantise res (fst mt)) t)).
    + f_equal. unfold feeds_bucket.
      destruct (pulses (light (snd mt))) as [|p ps]; simpl.
      * now rewrite andb_false_r.
      * rewrite andb_true_r.
        destruct (_ && _ && _); [reflexivity|].
        simpl. induction ps; simpl; auto.
    + intros b' pt. apply bundle_pulse_bucket.
Qed.

(** X18: a pose comes from measurements only. If [Solve] works with a pose
    of tracker [tt] at time [t] in lighthouse [lt], the buffer holds a
    measurement of that tracker in that lighthouse, with at least one pulse,
    whose time falls into the bucket [t]. *)
Theorem pose_needs_measurement (s : State) (tt : string) (t : Time)
    (lt : string) (p : arr6) :
  StdMap.ordered (lighthouses_ s) ->
  StdMap.ordered (trackers_ s) ->
  pose_at (solve_poses s) tt t lt = Some p ->
  exists mt,
    In mt (measurements_ s) /\
    frame_id (light (snd mt)) = tt /\
    lighthouse (light (snd mt)) = lt /\
    quantise (res_ s) (fst mt) = t /\
    pulses (light (snd mt)) <> [].
Proof.
  intros Hls Hts Hp. unfold solve_poses in Hp.
  rewrite pnp_stage_pose in Hp;
    auto using bundle_measurements_ordered.
  destruct (StdMap.find lt (lighthouses_ s)); [|discriminate].
  destruct (StdMap.find tt (trackers_ s)); [|discriminate].
  match type of Hp with
  | match ?x with _ => _ end = _ => destruct x eqn:Hf; [|discriminate]
  end.
  pose proof (f_equal (fun o : option SensorMap =>
                         match o with Some _ => true | None => false end) Hf)
    as Hb.
  change (has_bucket tt lt t
            (bundle_measurements (res_ s) (measurements_ s)) = true) in Hb.
  rewrite bundle_measurements_bucket in Hb.
  apply existsb_exists in Hb. destruct Hb as (mt & Hin & Hfeed).
  exists mt. unfold feeds_bucket in Hfeed.
  apply andb_prop in Hfeed. destruct Hfeed as [Hfeed Hpulses].
  apply andb_prop in Hfeed. destruct Hfeed as [Hfeed Htime].
  apply andb_prop in Hfeed. destruct Hfeed as [Hframe Hlh].
  repeat split; auto.
  - now apply String.eqb_eq.
  - now apply String.eqb_eq.
  - now apply Z.eqb_eq.
  - intros Hnil. now rewrite Hnil in Hpulses.
Qed.

End SolveFacts.

(** ** [main] *)

Section MainFacts.
Variable AngleAxis_of_quaternion : Quaternion -> double * Vec3.

Lemma In_subscript {K V} `{OrdKeyLaws K} (d : V) (k k0 : K) (f : V -> V)
    (v0 : V) (m : StdMap.t K V) :
  In (k0, v0) (StdMap.subscript d k f m) ->
  (exists v, v0 = f v) \/ In (k0, v0) m.
Proof.
  induction m as [|[k' v] m IH]; simpl.
  - intros [[= <- <-]|[]]. left. now exists d.
  - destruct (kcmp k k') eqn:Hc; simpl.
    + intros [[= <- <-]|Hin]; [left; now exists v | now right; right].
    + intros [[= <- <-]|[Hin|Hin]];
        [left; now exists d | now right; left | now right; right].
    + intros [Hin|Hin]; [now right; left|].
      destruct (IH Hin) as [Hf|Hin']; [now left | now right; right].
Qed.

Lemma load_lighthouses_ordered (ps : ParamServer) (names : list string)
    (ls : LighthouseMap) :
  StdMap.ordered ls ->
  StdMap.ordered
    (fold_left (load_lighthouse AngleAxis_of_quaternion ps) names ls).
Proof.
  revert ls. induction names as [|name names IH]; intros ls Hls; simpl;
    [exact Hls|].
  apply IH. unfold load_lighthouse.
  destruct (negb _); [exact Hls | now apply ordered_subscript].
Qed.

Lemma load_trackers_ordered (ps : ParamServer) (names : list string)
    (ts : TrackerMap) :
  StdMap.ordered ts ->
  StdMap.ordered (fold_left (load_tracker AngleAxis_of_quaternion ps) names ts).
Proof.
  revert ts. induction names as [|name names IH]; intros ts Hts; simpl;
    [exact Hts|].
  apply IH. unfold load_tracker.
  destruct (negb _); [exact Hts | now apply ordered_subscript].
Qed.

Lemma load_lighthouses_not_ready (ps : ParamServer) (names : list string)
    (ls : LighthouseMap) :
  (forall k l, In (k, l) ls -> lighthouse_ready l = false) ->
  forall k l,
    In (k, l) (fold_left (load_lighthouse AngleAxis_of_quaternion ps) names ls)
    -> lighthouse_ready l = false.
Proof.
  revert ls. induction names as [|name names IH]; intros ls Hls; simpl;
    [exact Hls|].
  apply IH. unfold load_lighthouse.
  destruct (negb _); [exact Hls|].
  intros k l Hin. apply In_subscript in Hin.
  destruct Hin as [[v ->]|Hin]; [reflexivity | eauto].
Qed.

Lemma load_trackers_not_ready (ps : ParamServer) (names : list string)
    (ts : TrackerMap) :
  (forall k t, In (k, t) ts -> tracker_ready t = false) ->
  forall k t,
    In (k, t) (fold_left (load_tracker AngleAxis_of_quaternion ps) names ts)
    -> tracker_ready t = false.
Proof.
  revert ts. induction names as [|name names IH]; intros ts Hts; simpl;
    [exact Hts|].
  apply IH. unfold load_tracker.
  destruct (negb _); [exact Hts|].
  intros k t Hin. apply In_subscript in Hin.
  destruct Hin as [[v ->]|Hin]; [reflexivity | eauto].
Qed.

(** [main] leaves the lighthouse map and the tracker map ordered by serial,
    whatever the parameter server holds, and both buffers empty. *)
Lemma main_maps_ordered (ps : ParamServer) :
  StdMap.ordered (lighthouses_ (main AngleAxis_of_quaternion ps))
  /\ StdMap.ordered (trackers_ (main AngleAxis_of_quaternion ps))
  /\ measurements_ (main AngleAxis_of_quaternion ps) = []
  /\ corrections_ (main AngleAxis_of_quaternion ps) = [].
Proof.
  unfold main. simpl. repeat split.
  - now apply load_lighthouses_ordered.
  - now apply load_trackers_ordered.
Qed.

(** X20: the master is the lighthouse with the least serial, in the order
    of [std::string], wherever its name stands in the list of the parameter
    server: every lighthouse [main] configures has the serial of the master
    or a greater one. *)
Theorem main_master_is_least_serial (ps : ParamServer) (k : string)
    (l : Lighthouse) :
  let ls := lighthouses_ (main AngleAxis_of_quaternion ps) in
  In (k, l) ls ->
  k = master_serial ls \/ String.compare (master_serial ls) k = Lt.
Proof.
  cbv zeta. destruct (main_maps_ordered ps) as [Hord _].
  destruct (lighthouses_ (main AngleAxis_of_quaternion ps))
    as [|[lm m] rest]; simpl; [intros []|].
  destruct Hord as [Habove _].
  intros [[= -> _]|Hin]; [now left|]. right.
  clear m. induction rest as [|[k' l'] rest IH]; simpl in *; [easy|].
  destruct Habove as [Hk Hrest].
  destruct Hin as [[= -> _]|Hin]; [exact Hk | now apply IH].
Qed.

(** X21: [main] marks every lighthouse and every tracker it configures as
    not ready, so the node as [main] leaves it drops every light message,
    recording or not: messages are stored only once readiness has been
    set from outside this file. *)
Theorem main_nothing_ready (ps : ParamServer) (now : Time) (msg : Light) :
  (forall k l, StdMap.find k (lighthouses_ (main AngleAxis_of_quaternion ps)) = Some l ->
               lighthouse_ready l = false) /\
  (forall k t, StdMap.find k (trackers_ (main AngleAxis_of_quaternion ps)) = Some t ->
               tracker_ready t = false) /\
  LightCallback now msg (main AngleAxis_of_quaternion ps) = main AngleAxis_of_quaternion ps.
Proof.
  assert (Hl : forall k l, StdMap.find k (lighthouses_ (main AngleAxis_of_quaternion ps)) = Some l ->
                           lighthouse_ready l = false).
  { intros k l Hf. apply find_In in Hf. unfold main in Hf. simpl in Hf.
    now apply load_lighthouses_not_ready in Hf. }
  assert (Ht : forall k t, StdMap.find k (trackers_ (main AngleAxis_of_quaternion ps)) = Some t ->
                           tracker_ready t = false).
  { intros k t Hf. apply find_In in Hf. unfold main in Hf. simpl in Hf.
    now apply load_trackers_not_ready in Hf. }
  repeat split; auto.
  unfold LightCallback.
  replace (light_gate (main AngleAxis_of_quaternion ps) msg) with true; [reflexivity|].
  symmetry. unfold light_gate, StdMap.mem.
  destruct (StdMap.find (frame_id msg) (trackers_ (main AngleAxis_of_quaternion ps))) as [t|] eqn:Hf.
  - rewrite (Ht _ _ Hf). simpl. now rewrite !orb_true_r.
  - simpl. now rewrite orb_true_r.
Qed.


End MainFacts.

(** ** Edge values *)

(** X3: the number of pulses left is compared with [thresh_count_] as a
    [size_t]. For a count that is not negative this is the comparison of
    the two numbers; under a negative count the test always holds, and the
    node stores no light message at all. *)
Theorem count_compared_as_size_t (s : State) (now : Time) (msg : Light) :
  (- 2 ^ 31 <= thresh_count_ s < 2 ^ 31)%Z ->
  (Z.of_nat (List.length (pulses msg)) < 2 ^ 32)%Z ->
  let left := surviving s (pulses msg) in
  (Z.of_nat (List.length left) <? size_t_of_int (thresh_count_ s))%Z
  = ((thresh_count_ s <? 0)%Z
     || (Z.of_nat (List.length left) <? thresh_count_ s)%Z) /\
  ((thresh_count_ s < 0)%Z -> LightCallback now msg s = s).
Proof.
  intros Hc Hn left. split.
  - assert (Hleft : (Z.of_nat (List.length left) < 2 ^ 32)%Z).
    { subst left. rewrite surviving_filter.
      pose proof (filter_length_le (kept s) (pulses msg)). lia. }
    unfold size_t_of_int.
    destruct (Z.ltb_spec (thresh_count_ s) 0) as [Hneg|Hpos]; simpl.
    + replace (thresh_count_ s)
        with ((thresh_count_ s + 2 ^ 64) + (-1) * 2 ^ 64)%Z by lia.
      rewrite Z.mod_add by lia. rewrite Z.mod_small by lia.
      apply Z.ltb_lt. lia.
    + now rewrite Z.mod_small by lia.
  - intros Hneg. apply negative_count_drops; [lia | exact Hn].
Qed.

Lemma ltb_nan_right (x : double) : PrimFloat.ltb x nan = false.
Proof.
  rewrite ltb_spec.
  replace (Prim2SF nan) with S754_nan by reflexivity.
  unfold SFltb, SFcompare. now destruct (Prim2SF x).
Qed.

Lemma ltb_nan_left (x : double) : PrimFloat.ltb nan x = false.
Proof.
  rewrite ltb_spec.
  replace (Prim2SF nan) with S754_nan by reflexivity.
  reflexivity.
Qed.

(** X5: a NaN never rejects a pulse. A pulse whose angle is NaN passes
    the angle test, one whose duration is NaN passes the duration test,
    and under a NaN threshold the test of that threshold rejects nothing. *)
Theorem nan_is_never_rejected (s : State) (p : Pulse) :
  (angle p = nan ->
   rejected s p = PrimFloat.ltb (duration p) (thresh_duration_ s / 1e6)) /\
  (duration p = nan ->
   rejected s p = PrimFloat.ltb (thresh_angle_ s / 57.2958) (angle p)) /\
  (thresh_angle_ s = nan ->
   rejected s p = PrimFloat.ltb (duration p) (thresh_duration_ s / 1e6)) /\
  (thresh_duration_ s = nan ->
   rejected s p = PrimFloat.ltb (thresh_angle_ s / 57.2958) (angle p)).
Proof.
  unfold rejected. repeat split.
  - intros ->. now rewrite ltb_nan_right.
  - intros ->. now rewrite ltb_nan_left, orb_false_r.
  - intros ->. replace (nan / 57.2958)%float with nan by reflexivity.
    now rewrite ltb_nan_left.
  - intros ->. replace (nan / 1e6)%float with nan by reflexivity.
    now rewrite ltb_nan_right, orb_false_r.
Qed.

Section PairingFacts.
Context {E : Extern}.

(** X19: the object points and the image points handed to
    [solvePnPRansac] are always as many as each other, and never more than
    [NUM_SENSORS]. *)
Theorem correspondences_paired (c : bool) (lh : Lighthouse) (tr : Tracker)
    (sm : SensorMap) :
  let r := sensor_correspondences c lh tr sm in
  List.length (fst r) = List.length (snd r)
  /\ (List.length (fst r) <= NUM_SENSORS)%nat.
Proof.
  cbv zeta. split.
  - unfold sensor_correspondences.
    assert (Hgen : forall l acc,
              List.length (fst acc) = List.length (snd acc) ->
              List.length
                (fst (fold_left (sensor_correspondence c lh tr sm) l acc))
              = List.length
                  (snd (fold_left (sensor_correspondence c lh tr sm) l acc))).
    { induction l as [|x l IH]; intros acc Hacc; simpl; [exact Hacc|].
      apply IH. unfold sensor_correspondence.
      destruct (Mean _); [|exact Hacc].
      destruct (Mean _); [|exact Hacc].
      simpl. rewrite !length_app. simpl. lia. }
    now apply Hgen.
  - rewrite sensor_correspondences_count. unfold valid_sensors.
    pose proof (filter_length_le (has_both_axes sm) (seq 0 NUM_SENSORS))
      as Hle.
    now rewrite length_seq in Hle.
Qed.

End PairingFacts.

(** ** The sample session, continued *)

Unset Implicit Arguments.

Lemma sample_negative_count_range :
  (- 2 ^ 31 <= thresh_count_ sample_negative_count < 2 ^ 31)%Z
  /\ (Z.of_nat (List.length (pulses (sample_light "LHB-1" 0))) < 2 ^ 32)%Z
  /\ (thresh_count_ sample_negative_count < 0)%Z.
Proof. vm_compute. repeat split; discriminate. Qed.

Lemma count_compared_as_size_t_witness :
  LightCallback 1%Z (sample_light "LHB-1" 0) sample_negative_count
  = sample_negative_count.
Proof.
  exact (proj2 (count_compared_as_size_t sample_negative_count 1%Z
                 (sample_light "LHB-1" 0)
                 (proj1 sample_negative_count_range)
                 (proj1 (proj2 sample_negative_count_range)))
           (proj2 (proj2 sample_negative_count_range))).
Defined.

Lemma sample_params_second_lighthouse :
  In ("LHB-2"%string, MkLighthouse [] (Arr6 4 5 6 0 0 0)%float false)
    (lighthouses_ (main sample_angle_axis sample_params)).
Proof. vm_compute. right. left. reflexivity. Qed.

Lemma main_master_is_least_serial_witness :
  "LHB-2"%string
  = master_serial (lighthouses_ (main sample_angle_axis sample_params))
  \/ String.compare
       (master_serial (lighthouses_ (main sample_angle_axis sample_params)))
       "LHB-2"
     = Lt.
Proof.
  exact (main_master_is_least_serial sample_angle_axis sample_params
           "LHB-2"%string (MkLighthouse [] (Arr6 4 5 6 0 0 0)%float false)
           sample_params_second_lighthouse).
Defined.

Lemma sample_feed_facts :
  recording_ (globals (@spin Stand_in (sample_feed ++ [EvTrigger]) sample_node))
  = false
  /\ StdMap.mem 5%Z (corrections_ sample_recording) = true
  /\ pose_at (@solve_poses Stand_in sample_recording) "TRK-A" 0%Z "LHB-2"
     = Some (Arr6 1 0.5 0.25 0 0 0)%float
  /\ StdMap.ordered (lighthouses_ sample_idle)
  /\ StdMap.ordered (trackers_ sample_idle).
Proof. vm_compute. repeat split. Qed.

Lemma idle_node_has_empty_buffer_witness :
  measurements_ (globals (@spin Stand_in (sample_feed ++ [EvTrigger]) sample_node))
  = [].
Proof.
  exact (@idle_node_has_empty_buffer Stand_in (sample_feed ++ [EvTrigger])
           sample_node (fun _ => eq_refl) (proj1 sample_feed_facts)).
Defined.

Lemma sample_node_buffers_empty :
  (forall t m, In (t, m) (measurements_ (globals sample_node)) ->
               admissible (globals sample_node) (light m))
  /\ (forall t c, In (t, c) (corrections_ (globals sample_node)) ->
                  world_to_body (globals sample_node) c).
Proof. split; intros ? ? []. Qed.

Lemma sample_feed_members :
  In (1%Z, MkMeasurement (sample_light "LHB-1" 0))
    (measurements_ (globals (@spin Stand_in sample_feed sample_node)))
  /\ In (5%Z, sample_correction)
       (corrections_ (globals (@spin Stand_in sample_feed sample_node))).
Proof. vm_compute. split; left; reflexivity. Qed.

Lemma buffered_measurements_admissible_witness :
  admissible (globals (@spin Stand_in sample_feed sample_node))
    (sample_light "LHB-1" 0).
Proof.
  exact (@buffered_measurements_admissible Stand_in sample_feed sample_node
           (proj1 sample_node_buffers_empty) 1%Z
           (MkMeasurement (sample_light "LHB-1" 0))
           (proj1 sample_feed_members)).
Defined.

Lemma corrections_are_world_to_body_witness :
  world_to_body (globals (@spin Stand_in sample_feed sample_node))
    sample_correction.
Proof.
  exact (@corrections_are_world_to_body Stand_in sample_feed sample_node
           (proj2 sample_node_buffers_empty) 5%Z sample_correction
           (proj2 sample_feed_members)).
Defined.

Lemma corrections_never_removed_witness :
  StdMap.mem 5%Z
    (corrections_
       (globals (@spin Stand_in [EvTrigger; EvTrigger]
                   (MkNode sample_recording false))))
  = true.
Proof.
  exact (@corrections_never_removed Stand_in [EvTrigger; EvTrigger]
           (MkNode sample_recording false) 5%Z
           (proj1 (proj2 sample_feed_facts))).
Defined.

Lemma timer_starts_idle_node_witness :
  @spin Stand_in [EvLight 1%Z (sample_light "LHB-1" 0); EvTimer] sample_node
  = MkNode (set_recording true sample_idle) false.
Proof.
  exact (@timer_starts_idle_node Stand_in 1%Z (sample_light "LHB-1" 0)
           sample_node eq_refl).
Defined.

Lemma session_without_measurements_fails_witness :
  fst (@TriggerCallback Stand_in (MkResponse true EmptyString)
         (CorrectionCallback 5%Z [sample_correction]
            (snd (@TriggerCallback Stand_in (MkResponse false EmptyString)
                    sample_idle))))
  = MkResponse false "Recording stopped. Solution not found.".
Proof.
  exact (proj1 (@session_without_measurements_fails Stand_in
                  (MkResponse false EmptyString) (MkResponse true EmptyString)
                  sample_idle [(5%Z, [sample_correction])]
                  eq_refl eq_refl)).
Defined.

Lemma stop_trigger_reports_buffered_witness :
  success (fst (@TriggerCallback Stand_in (MkResponse false EmptyString)
                  sample_recording))
  = negb (StdMap.empty (measurements_ sample_recording)).
Proof.
  exact (proj1 (@stop_trigger_reports_buffered Stand_in
                  (MkResponse false EmptyString) sample_recording
                  sample_recording_is_recording)).
Defined.

Lemma sample_other_guess_same_beacons :
  Forall2 same_beacon (lighthouses_ sample_recording)
    (lighthouses_ sample_other_guess).
Proof. vm_compute. repeat constructor. Qed.

Lemma solve_ignores_slave_guesses_witness :
  wTv_ (snd (@Solve Stand_in sample_other_guess))
  = wTv_ (snd (@Solve Stand_in sample_recording)).
Proof.
  exact (proj2 (@solve_ignores_slave_guesses Stand_in sample_recording
                  sample_other_guess sample_other_guess_same_beacons
                  eq_refl eq_refl eq_refl eq_refl eq_refl eq_refl
                  sample_recording_has_measurements)).
Defined.

Lemma pose_needs_measurement_witness :
  exists mt,
    In mt (measurements_ sample_recording) /\
    frame_id (light (snd mt)) = "TRK-A"%string /\
    lighthouse (light (snd mt)) = "LHB-2"%string /\
    @quantise Stand_in (res_ sample_recording) (fst mt) = 0%Z /\
    pulses (light (snd mt)) <> [].
Proof.
  exact (@pose_needs_measurement Stand_in sample_recording "TRK-A" 0%Z
           "LHB-2" (Arr6 1 0.5 0.25 0 0 0)%float
           (proj1 sample_recording_ordered) (proj2 sample_recording_ordered)
           (proj1 (proj2 (proj2 sample_feed_facts)))).
Defined.
